(** * Healthcare hash chain: a shallow embedding of HEALTHCARE.py

    The development follows the source file top down: Python strings and
    JSON-like values, [json.dumps(..., sort_keys=True, separators=(",", ":"))],
    [str.encode("utf-8")], [hashlib.sha256(...).hexdigest()], then the
    [Block] dataclass and the [Blockchain] class with its write path, read
    path and integrity check. *)

From Stdlib Require Import ZArith NArith Lia List String Ascii Sorted.
From stdpp Require Import base option list gmap pretty.

Open Scope N_scope.

(** ** Python strings

    A Python [str] is a sequence of Unicode code points; [==] is equality of
    the sequences and [<] is the lexicographic order on code points. *)

Definition pystr := list N.

Definition py (s : string) : pystr :=
  map (fun a => N_of_ascii a) (list_ascii_of_string s).

Fixpoint str_ltb (a b : pystr) : bool :=
  match a, b with
  | [], [] => false
  | [], _ :: _ => true
  | _ :: _, [] => false
  | x :: a', y :: b' =>
      if x <? y then true else if y <? x then false else str_ltb a' b'
  end.

(** ** Exceptions and results *)

Inductive exn : Type :=
  | TypeError
  | IndexError
  | UnicodeEncodeError.

Inductive result (A : Type) : Type :=
  | Ok (a : A)
  | Raise (e : exn).

Arguments Ok {A} a.
Arguments Raise {A} e.

Global Instance exn_eq_dec : EqDecision exn.
Proof. solve_decision. Defined.

Global Instance result_eq_dec {A} `{EqDecision A} : EqDecision (result A).
Proof. solve_decision. Defined.

Global Instance result_ret : MRet result := fun A a => Ok a.

Global Instance result_bind : MBind result := fun A B k r =>
  match r with
  | Ok a => k a
  | Raise e => Raise e
  end.

(** [for x in xs: yield f(x)], stopping at the first exception. *)
Fixpoint collect {A} (rs : list (result A)) : result (list A) :=
  match rs with
  | [] => Ok []
  | r :: rs' => a ← r; l ← collect rs'; Ok (a :: l)
  end.

(** ** JSON-like values

    The payload of a block is a [Dict[str, Any]].  A Python [dict] keeps its
    items in insertion order, so a dict is an association list whose keys are
    pairwise distinct ([wf_value]).  [PyOther] stands for any object the
    [json] module has no encoding for (a [set], [bytes], a class instance).
    Floats are left out of the model. *)

#[warnings="-register-all"] Inductive pyvalue : Type :=
  | PyNone
  | PyBool (b : bool)
  | PyInt (z : Z)
  | PyStr (s : pystr)
  | PyList (l : list pyvalue)
  | PyDict (d : list (pystr * pyvalue))
  | PyOther.

Definition pydict := list (pystr * pyvalue).

Module Json.

(** *** [py_encode_basestring_ascii] *)

Definition hex_digit (n : N) : N :=
  if n <? 10 then 48 + n else 87 + n.

(** ['{0:04x}'.format(n)] *)
Definition hex4 (n : N) : pystr :=
  [ hex_digit (N.shiftr n 12 mod 16); hex_digit (N.shiftr n 8 mod 16);
    hex_digit (N.shiftr n 4 mod 16); hex_digit (n mod 16) ].

Definition u_escape (n : N) : pystr := py "\u" ++ hex4 n.

Definition escape_char (c : N) : pystr :=
  if c =? 92 then py "\\"
  else if c =? 34 then [92; 34]
  else if c =? 8 then py "\b"
  else if c =? 12 then py "\f"
  else if c =? 10 then py "\n"
  else if c =? 13 then py "\r"
  else if c =? 9 then py "\t"
  else if (32 <=? c) && (c <=? 126) then [c]
  else if c <? 65536 then u_escape c
  else
    let n := c - 65536 in
    let s1 := N.lor 55296 (N.land (N.shiftr n 10) 1023) in
    let s2 := N.lor 56320 (N.land n 1023) in
    u_escape s1 ++ u_escape s2.

Definition encode_basestring_ascii (s : pystr) : pystr :=
  [34] ++ concat (map escape_char s) ++ [34].

(** *** [sorted(dct.items())]

    Items are compared as tuples; the keys of a dict are distinct, so the
    comparison is decided by the keys.  The sort is stable. *)

Fixpoint insert_item {A} (x : pystr * A) (l : list (pystr * A))
  : list (pystr * A) :=
  match l with
  | [] => [x]
  | y :: l' => if str_ltb x.1 y.1 then x :: l else y :: insert_item x l'
  end.

Fixpoint sort_items {A} (l : list (pystr * A)) : list (pystr * A) :=
  match l with
  | [] => []
  | x :: l' => insert_item x (sort_items l')
  end.

(** *** The encoder *)

(** [item_separator.join(chunks)] with [item_separator = ","] *)
Fixpoint join_comma (chunks : list pystr) : pystr :=
  match chunks with
  | [] => []
  | [c] => c
  | c :: cs => c ++ [44] ++ join_comma cs
  end.

(** One [key:value] chunk, with [key_separator = ":"]. *)
Definition member (kv : pystr * pystr) : pystr :=
  encode_basestring_ascii kv.1 ++ [58] ++ kv.2.

Definition on_snd {A B} (f : A -> B) (kv : pystr * A) : pystr * B :=
  (kv.1, f kv.2).

Definition lift_snd {A} (kv : pystr * result A) : result (pystr * A) :=
  a ← kv.2; Ok (kv.1, a).

Definition encode_members (items : list (pystr * result pystr))
  : result pystr :=
  ms ← collect (map lift_snd items);
  Ok ([123] ++ join_comma (map member ms) ++ [125]).

Definition encode_elements (items : list (result pystr)) : result pystr :=
  es ← collect items;
  Ok ([91] ++ join_comma es ++ [93]).

(** [json.dumps(v, sort_keys=True, separators=(",", ":"))] *)
Fixpoint dumps (v : pyvalue) : result pystr :=
  match v with
  | PyNone => Ok (py "null")
  | PyBool true => Ok (py "true")
  | PyBool false => Ok (py "false")
  | PyInt z => Ok (py (pretty z))
  | PyStr s => Ok (encode_basestring_ascii s)
  | PyList l => encode_elements (map dumps l)
  | PyDict d => encode_members (sort_items (map (on_snd dumps) d))
  | PyOther => Raise TypeError
  end.

End Json.

(** ** [str.encode("utf-8")]

    Lone surrogates have no UTF-8 encoding: Python raises
    [UnicodeEncodeError] on them. *)

Module Utf8.

(** The one to four bytes of a code point. *)
Definition char_bytes (c : N) : list N :=
  if c <? 128 then [c]
  else if c <? 2048 then [192 + c / 64; 128 + c mod 64]
  else if c <? 65536 then
    [224 + c / 4096; 128 + (c / 64) mod 64; 128 + c mod 64]
  else
    [240 + c / 262144; 128 + (c / 4096) mod 64;
     128 + (c / 64) mod 64; 128 + c mod 64].

Definition is_surrogate (c : N) : bool := (55296 <=? c) && (c <=? 57343).

Definition encode_char (c : N) : result (list N) :=
  if is_surrogate c || (1114112 <=? c) then Raise UnicodeEncodeError
  else Ok (char_bytes c).

Definition encode (s : pystr) : result (list N) :=
  bs ← collect (map encode_char s); Ok (concat bs).

End Utf8.

(** ** [hashlib.sha256]: SHA-256 (FIPS 180-4) on a list of bytes *)

Module Sha256.

Definition mask32 : N := 4294967295.

Definition add32 (a b : N) : N := (a + b) mod 4294967296.

Definition rotr (n x : N) : N :=
  N.land (N.lor (N.shiftr x n) (N.shiftl x (32 - n))) mask32.

Definition Ch (x y z : N) : N :=
  N.lxor (N.land x y) (N.land (N.lxor x mask32) z).

Definition Maj (x y z : N) : N :=
  N.lxor (N.lxor (N.land x y) (N.land x z)) (N.land y z).

Definition Sigma0 (x : N) : N :=
  N.lxor (N.lxor (rotr 2 x) (rotr 13 x)) (rotr 22 x).

Definition Sigma1 (x : N) : N :=
  N.lxor (N.lxor (rotr 6 x) (rotr 11 x)) (rotr 25 x).

Definition sigma0 (x : N) : N :=
  N.lxor (N.lxor (rotr 7 x) (rotr 18 x)) (N.shiftr x 3).

Definition sigma1 (x : N) : N :=
  N.lxor (N.lxor (rotr 17 x) (rotr 19 x)) (N.shiftr x 10).

Definition K : list N :=
  [ 1116352408; 1899447441; 3049323471; 3921009573; 961987163; 1508970993;
    2453635748; 2870763221; 3624381080; 310598401; 607225278; 1426881987;
    1925078388; 2162078206; 2614888103; 3248222580; 3835390401; 4022224774;
    264347078; 604807628; 770255983; 1249150122; 1555081692; 1996064986;
    2554220882; 2821834349; 2952996808; 3210313671; 3336571891; 3584528711;
    113926993; 338241895; 666307205; 773529912; 1294757372; 1396182291;
    1695183700; 1986661051; 2177026350; 2456956037; 2730485921; 2820302411;
    3259730800; 3345764771; 3516065817; 3600352804; 4094571909; 275423344;
    430227734; 506948616; 659060556; 883997877; 958139571; 1322822218;
    1537002063; 1747873779; 1955562222; 2024104815; 2227730452; 2361852424;
    2428436474; 2756734187; 3204031479; 3329325298 ].

(** The eight working variables [a .. h], also the chaining value. *)
Record state : Type := State {
  sa : N; sb : N; sc : N; sd : N; se : N; sf : N; sg : N; sh : N
}.

Definition H0 : state :=
  State 1779033703 3144134277 1013904242 2773480762
        1359893119 2600822924 528734635 1541459225.

(** *** Padding and parsing *)

Definition be_bytes (count : nat) (x : N) : list N :=
  map (fun i => N.shiftr x (8 * N.of_nat i) mod 256) (rev (seq 0 count)).

Definition pad (msg : list N) : list N :=
  let len := length msg in
  let zeros := ((64 - (len + 9) mod 64) mod 64)%nat in
  msg ++ [128] ++ repeat 0 zeros ++ be_bytes 8 (8 * N.of_nat len).

Fixpoint be_word (bs : list N) (acc : N) : N :=
  match bs with
  | [] => acc
  | b :: bs' => be_word bs' (256 * acc + b)
  end.

Fixpoint chunks {A} (size count : nat) (l : list A) : list (list A) :=
  match count with
  | O => []
  | S count' => take size l :: chunks size count' (drop size l)
  end.

Definition words_of_block (block : list N) : list N :=
  map (fun w => be_word w 0) (chunks 4 16 block).

(** *** Message schedule; [rev_w] holds W[t-1], W[t-2], ... *)

Fixpoint extend (count : nat) (rev_w : list N) : list N :=
  match count with
  | O => rev_w
  | S count' =>
      let w := add32 (add32 (sigma1 (nth 1 rev_w 0)) (nth 6 rev_w 0))
                     (add32 (sigma0 (nth 14 rev_w 0)) (nth 15 rev_w 0)) in
      extend count' (w :: rev_w)
  end.

Definition schedule (block : list N) : list N :=
  rev (extend 48 (rev (words_of_block block))).

(** *** Compression *)

Definition round (s : state) (kw : N * N) : state :=
  let t1 := add32 (add32 (add32 (sh s) (Sigma1 (se s)))
                         (add32 (Ch (se s) (sf s) (sg s)) kw.1)) kw.2 in
  let t2 := add32 (Sigma0 (sa s)) (Maj (sa s) (sb s) (sc s)) in
  State (add32 t1 t2) (sa s) (sb s) (sc s) (add32 (sd s) t1)
        (se s) (sf s) (sg s).

Definition compress (h : state) (block : list N) : state :=
  let s := fold_left round (combine K (schedule block)) h in
  State (add32 (sa h) (sa s)) (add32 (sb h) (sb s))
        (add32 (sc h) (sc s)) (add32 (sd h) (sd s))
        (add32 (se h) (se s)) (add32 (sf h) (sf s))
        (add32 (sg h) (sg s)) (add32 (sh h) (sh s)).

Definition final_state (msg : list N) : state :=
  let padded := pad msg in
  fold_left compress (chunks 64 (length padded / 64)%nat padded) H0.

(** [hashlib.sha256(msg).digest()]: 32 bytes *)
Definition digest (msg : list N) : list N :=
  let s := final_state msg in
  concat (map (be_bytes 4)
    [sa s; sb s; sc s; sd s; se s; sf s; sg s; sh s]).

Definition hex2 (b : N) : pystr :=
  [Json.hex_digit (b / 16); Json.hex_digit (b mod 16)].

(** [hashlib.sha256(msg).hexdigest()] *)
Definition hexdigest (msg : list N) : pystr :=
  concat (map hex2 (digest msg)).

End Sha256.

(** ** Python list indexing: [l[i]], negative indices count from the end *)

Definition list_get {A} (l : list A) (i : Z) : result A :=
  let n := Z.of_nat (length l) in
  let j := if (i <? 0)%Z then (n + i)%Z else i in
  if (j <? 0)%Z then Raise IndexError
  else match l !! Z.to_nat j with
       | Some a => Ok a
       | None => Raise IndexError
       end.

(** ** Blockchain core *)

Record Block : Type := mkBlock {
  index : Z;
  timestamp : pystr;
  patient_id : pystr;
  record : pydict;
  previous_hash : pystr;
  hash : pystr
}.

(** [Block.compute_hash] *)
Definition compute_hash (index : Z) (timestamp patient_id : pystr)
    (record : pydict) (previous_hash : pystr) : result pystr :=
  let payload := PyDict
    [ (py "index", PyInt index);
      (py "timestamp", PyStr timestamp);
      (py "patient_id", PyStr patient_id);
      (py "record", PyDict record);
      (py "previous_hash", PyStr previous_hash) ] in
  block_string ← Json.dumps payload;
  bytes ← Utf8.encode block_string;
  Ok (Sha256.hexdigest bytes).

(** [Block.create].  The reading of the clock,
    [dt.datetime.now().isoformat(timespec="seconds")], is the argument
    [now]. *)
Definition create (now : pystr) (index : Z) (patient_id : pystr)
    (record : pydict) (previous_hash : pystr) : result Block :=
  let timestamp := now in
  block_hash ← compute_hash index timestamp patient_id record previous_hash;
  Ok (mkBlock index timestamp patient_id record previous_hash block_hash).

Record Blockchain : Type := mkBlockchain {
  chain : list Block;
  _patient_index : gmap pystr (list Z)
}.

Definition _create_genesis_block (now : pystr) : result Block :=
  create now 0 (py "0") [(py "note", PyStr (py "Genesis Block"))] (py "0").

(** [Blockchain.__init__] *)
Definition init (now : pystr) : result Blockchain :=
  genesis ← _create_genesis_block now;
  Ok (mkBlockchain [genesis] ∅).

(** *** Write path *)

(** [d.setdefault(k, []).append(x)] *)
Definition setdefault_append (d : gmap pystr (list Z)) (k : pystr) (x : Z)
  : gmap pystr (list Z) :=
  <[k := default [] (d !! k) ++ [x]]> d.

(** [Blockchain.add_record]: the object after the call, and the returned
    block or the raised exception.  Nothing is assigned before
    [self.chain.append], so an exception raised up to there leaves the
    object as it was. *)
Definition add_record (self : Blockchain) (now : pystr) (patient_id : pystr)
    (record : pydict) : Blockchain * result Block :=
  match list_get (chain self) (-1) with
  | Raise e => (self, Raise e)
  | Ok latest =>
      let latest_hash := hash latest in
      match create now (Z.of_nat (length (chain self))) patient_id record
                   latest_hash with
      | Raise e => (self, Raise e)
      | Ok new_block =>
          (mkBlockchain (chain self ++ [new_block])
             (setdefault_append (_patient_index self) patient_id
                (index new_block)),
           Ok new_block)
      end
  end.

(** *** Read path *)

(** [Blockchain.get_all_records] *)
Definition get_all_records (self : Blockchain) (patient_id : pystr)
  : result (list Block) :=
  match _patient_index self !! patient_id with
  | None => Ok []
  | Some [] => Ok []
  | Some indices => collect (map (list_get (chain self)) indices)
  end.

(** [Blockchain.get_latest_record]; [None] of [Optional[Block]] is [None]. *)
Definition get_latest_record (self : Blockchain) (patient_id : pystr)
  : result (option Block) :=
  blocks ← get_all_records self patient_id;
  match blocks with
  | [] => Ok None
  | _ :: _ => b ← list_get blocks (-1); Ok (Some b)
  end.

(** *** Chain integrity *)

Definition broken_link_msg (i : nat) : pystr :=
  py "Broken link at index " ++ py (pretty i) ++ py ": previous_hash mismatch".

Definition hash_mismatch_msg (i : nat) : pystr :=
  py "Hash mismatch at index " ++ py (pretty i) ++ py ": data was modified".

(** The body of [for i in range(1, len(self.chain))], over the remaining
    values of [i]. *)
Fixpoint validate_loop (blocks : list Block) (range : list nat)
  : result (bool * option pystr) :=
  match range with
  | [] => Ok (true, None)
  | i :: range' =>
      prev ← list_get blocks (Z.of_nat i - 1);
      cur ← list_get blocks (Z.of_nat i);
      if bool_decide (previous_hash cur ≠ hash prev) then
        Ok (false, Some (broken_link_msg i))
      else
        recalculated ← compute_hash (index cur) (timestamp cur)
                         (patient_id cur) (record cur) (previous_hash cur);
        if bool_decide (hash cur ≠ recalculated) then
          Ok (false, Some (hash_mismatch_msg i))
        else validate_loop blocks range'
  end.

(** [Blockchain.validate] *)
Definition validate (self : Blockchain) : result (bool * option pystr) :=
  validate_loop (chain self) (seq 1 (length (chain self) - 1)).

(** ** States of the chain *)

(** The states a [Blockchain] object goes through: construction, then any
    number of [add_record] calls. *)
Inductive reachable : Blockchain -> Prop :=
  | reachable_init now self :
      init now = Ok self -> reachable self
  | reachable_add_record self now patient_id record :
      reachable self ->
      reachable (add_record self now patient_id record).1.

(** Assignments to the fields of a stored block from outside the class, as
    the demo's [bc.chain[idx].record[field] = value]. *)
Definition set_record (r : pydict) (b : Block) : Block :=
  mkBlock (index b) (timestamp b) (patient_id b) r (previous_hash b) (hash b).

Definition set_previous_hash (h : pystr) (b : Block) : Block :=
  mkBlock (index b) (timestamp b) (patient_id b) (record b) h (hash b).

Definition tamper (self : Blockchain) (i : nat) (f : Block -> Block)
  : result Blockchain :=
  b ← list_get (chain self) (Z.of_nat i);
  Ok (mkBlockchain (<[i := f b]> (chain self)) (_patient_index self)).

(** The two checks of [validate] at position [i]. *)
Definition link_ok (blocks : list Block) (i : nat) : bool :=
  match blocks !! (i - 1)%nat, blocks !! i with
  | Some prev, Some cur => bool_decide (previous_hash cur = hash prev)
  | _, _ => false
  end.

Definition recomputed (cur : Block) : result pystr :=
  compute_hash (index cur) (timestamp cur) (patient_id cur) (record cur)
    (previous_hash cur).

Definition integrity_ok (blocks : list Block) (i : nat) : bool :=
  match blocks !! i with
  | Some cur => bool_decide (recomputed cur = Ok (hash cur))
  | None => false
  end.

(** The positions [i], [i+1], ... of the blocks of [blocks] that belong to
    patient [p], in order. *)
Fixpoint positions (p : pystr) (i : nat) (blocks : list Block) : list Z :=
  match blocks with
  | [] => []
  | b :: blocks' =>
      (if bool_decide (patient_id b = p) then [Z.of_nat i] else [])
      ++ positions p (S i) blocks'
  end.

(** A patient without positions has no entry in the index. *)
Definition index_entry (l : list Z) : option (list Z) :=
  match l with
  | [] => None
  | _ :: _ => Some l
  end.

(** What holds of every state the class itself produces. *)
Record chain_inv (self : Blockchain) : Prop := mkChainInv {
  inv_nonempty : chain self <> [];
  inv_index : forall i b, chain self !! i = Some b -> index b = Z.of_nat i;
  inv_hash : forall i b, chain self !! i = Some b -> recomputed b = Ok (hash b);
  inv_link : forall i prev cur,
    chain self !! i = Some prev -> chain self !! S i = Some cur ->
    previous_hash cur = hash prev;
  inv_patients : forall p,
    _patient_index self !! p = index_entry (positions p 1 (tail (chain self)))
}.

(** ** Values as Python sees them *)

(** Keys of every dict are pairwise distinct. *)
Fixpoint wf_value (v : pyvalue) : bool :=
  match v with
  | PyList l => forallb wf_value l
  | PyDict d =>
      bool_decide (NoDup (map fst d)) && forallb (fun kv => wf_value kv.2) d
  | _ => true
  end.

(** Every part of the value has a JSON encoding. *)
Fixpoint serializable (v : pyvalue) : bool :=
  match v with
  | PyList l => forallb serializable l
  | PyDict d => forallb (fun kv => serializable kv.2) d
  | PyOther => false
  | _ => true
  end.

(** Two values hold the same items at every nesting level; only the order
    in which the items of a dict were inserted may differ. *)
#[warnings="-register-all"] Inductive same_items : pyvalue -> pyvalue -> Prop :=
  | same_refl v : same_items v v
  | same_list l1 l2 :
      Forall2 same_items l1 l2 -> same_items (PyList l1) (PyList l2)
  | same_dict d1 d d2 :
      d1 ≡ₚ d ->
      Forall2 (fun a b => a.1 = b.1 /\ same_items a.2 b.2) d d2 ->
      same_items (PyDict d1) (PyDict d2).

Definition key_lt {A} (x y : pystr * A) : Prop := str_ltb x.1 y.1 = true.

(** ** The canonical serialization, as the specification words it *)

Module Spec.

(** The mapping with the five fixed field names. *)
Definition payload (index : Z) (timestamp patient_id : pystr)
    (record : pydict) (previous_hash : pystr) : pyvalue :=
  PyDict
    [ (py "index", PyInt index);
      (py "timestamp", PyStr timestamp);
      (py "patient_id", PyStr patient_id);
      (py "record", PyDict record);
      (py "previous_hash", PyStr previous_hash) ].

(** Compact JSON text: members in the order the mapping lists them,
    nothing between the tokens. *)
Fixpoint compact_json (v : pyvalue) : result pystr :=
  match v with
  | PyNone => Ok (py "null")
  | PyBool true => Ok (py "true")
  | PyBool false => Ok (py "false")
  | PyInt z => Ok (py (pretty z))
  | PyStr s => Ok (Json.encode_basestring_ascii s)
  | PyList l => Json.encode_elements (map compact_json l)
  | PyDict d => Json.encode_members (map (Json.on_snd compact_json) d)
  | PyOther => Raise TypeError
  end.






End Spec.

(** Recursion that follows the encoder: sort the items of every dict. *)
Fixpoint sort_keys (v : pyvalue) : pyvalue :=
  match v with
  | PyList l => PyList (map sort_keys l)
  | PyDict d => PyDict (Json.sort_items (map (Json.on_snd sort_keys) d))
  | _ => v
  end.

(** Text of code points below 128. *)
Definition is_ascii (s : pystr) : Prop := Forall (fun c => c < 128) s.





(** ** A run of the program *)

Definition demo_now : pystr := py "2026-11-03T11:18:00".

Definition flu : pydict :=
  [(py "diagnosis", PyStr (py "flu")); (py "treatment", PyStr (py "rest"))].

Definition fracture : pydict :=
  [(py "diagnosis", PyStr (py "fracture"));
   (py "treatment", PyStr (py "cast"))].

Definition demo0 : Blockchain :=
  match init demo_now with
  | Ok self => self
  | Raise _ => mkBlockchain [] ∅
  end.

Definition demo1 : Blockchain :=
  (add_record demo0 demo_now (py "patient-1") flu).1.

Definition demo2 : Blockchain :=
  (add_record demo1 demo_now (py "patient-2") fracture).1.

Definition cold : pydict :=
  [(py "diagnosis", PyStr (py "cold")); (py "treatment", PyStr (py "rest"))].

(** [demo2] after [chain[1].record["diagnosis"] = "cold"]. *)
Definition demo2_cold : Blockchain :=
  match tamper demo2 1 (set_record cold) with
  | Ok self => self
  | Raise _ => demo2
  end.

(** [demo2] after [chain[2].previous_hash = "0"]: at position 2 both checks
    fail. *)
Definition demo2_unlinked : Blockchain :=
  match tamper demo2 2 (set_previous_hash (py "0")) with
  | Ok self => self
  | Raise _ => demo2
  end.

(** Bumping a timestamp keeps the stored hash. *)
Definition set_timestamp (t : pystr) (b : Block) : Block :=
  mkBlock (index b) t (patient_id b) (record b) (previous_hash b) (hash b).

(** * The rest of the program *)

(** ** Python dicts: [d.get(k)] and [d[k] = v]

    Assigning to a key the dict has replaces the value where it stands;
    a new key goes to the end. *)

Fixpoint dict_get (d : pydict) (k : pystr) : option pyvalue :=
  match d with
  | [] => None
  | (k', v') :: d' => if bool_decide (k' = k) then Some v' else dict_get d' k
  end.

Fixpoint dict_set (d : pydict) (k : pystr) (v : pyvalue) : pydict :=
  match d with
  | [] => [(k, v)]
  | (k', v') :: d' =>
      if bool_decide (k' = k) then (k, v) :: d' else (k', v') :: dict_set d' k v
  end.

(** ** [json.dumps(obj, ensure_ascii=False)], as [_print_block] calls it *)

Module JsonDisplay.

(** One character under [py_encode_basestring]: only the quote, the
    backslash and the control characters are escaped. *)
Definition escape_char (c : N) : pystr :=
  if c =? 92 then py "\\"
  else if c =? 34 then [92; 34]
  else if c =? 8 then py "\b"
  else if c =? 12 then py "\f"
  else if c =? 10 then py "\n"
  else if c =? 13 then py "\r"
  else if c =? 9 then py "\t"
  else if c <? 32 then Json.u_escape c
  else [c].

Definition encode_basestring (s : pystr) : pystr :=
  [34] ++ concat (map escape_char s) ++ [34].

(** [", ".join(chunks)] *)
Fixpoint join_comma_space (chunks : list pystr) : pystr :=
  match chunks with
  | [] => []
  | [c] => c
  | c :: cs => c ++ [44; 32] ++ join_comma_space cs
  end.

Definition member (kv : pystr * pystr) : pystr :=
  encode_basestring kv.1 ++ [58; 32] ++ kv.2.

Definition encode_members (items : list (pystr * result pystr))
  : result pystr :=
  ms ← collect (map Json.lift_snd items);
  Ok ([123] ++ join_comma_space (map member ms) ++ [125]).

Definition encode_elements (items : list (result pystr)) : result pystr :=
  es ← collect items;
  Ok ([91] ++ join_comma_space es ++ [93]).

(** Items in insertion order, separators [", "] and [": "]. *)
Fixpoint dumps (v : pyvalue) : result pystr :=
  match v with
  | PyNone => Ok (py "null")
  | PyBool true => Ok (py "true")
  | PyBool false => Ok (py "false")
  | PyInt z => Ok (py (pretty z))
  | PyStr s => Ok (encode_basestring s)
  | PyList l => encode_elements (map dumps l)
  | PyDict d => encode_members (map (Json.on_snd dumps) d)
  | PyOther => Raise TypeError
  end.

End JsonDisplay.

(** ** Printing

    A computation that prints: the strings handed to [print], one per call,
    then the value or the exception that ended it. *)

Definition io (A : Type) : Type := list pystr * result A.

Global Instance io_ret : MRet io := fun A a => ([], Ok a).

Global Instance io_bind : MBind io := fun A B k m =>
  match m with
  | (out, Ok a) => let (out', r) := k a in (out ++ out', r)
  | (out, Raise e) => (out, Raise e)
  end.

Definition print (line : pystr) : io unit := ([line], Ok tt).

(** [print(a, b)]: the two arguments with a space between. *)
Definition print2 (a b : pystr) : io unit := print (a ++ [32] ++ b).

Definition lift {A} (r : result A) : io A := ([], r).

(** [for x in xs: body(x)] *)
Fixpoint for_each {A} (xs : list A) (body : A -> io unit) : io unit :=
  match xs with
  | [] => mret tt
  | x :: xs' => _ ← body x; for_each xs' body
  end.

(** [Blockchain._print_block] *)
Definition _print_block (block : Block) : io unit :=
  _ ← print2 (py "Index:         ") (py (pretty (index block)));
  _ ← print2 (py "Timestamp:     ") (timestamp block);
  _ ← print2 (py "Patient ID:    ") (patient_id block);
  text ← lift (JsonDisplay.dumps (PyDict (record block)));
  _ ← print2 (py "Record:        ") text;
  _ ← print2 (py "Hash:          ") (hash block);
  _ ← print2 (py "Previous Hash: ") (previous_hash block);
  print (repeat 45 60).

(** [Blockchain.print_chain] *)
Definition print_chain (self : Blockchain) : io unit :=
  for_each (chain self) _print_block.

(** ** The menu

    One pass of the [while True] loop, given what the user typed.  The
    arguments of a choice are the values of [input(...).strip()]
    ([.strip().lower()] for the field of choice 6); the index of choice 6 is
    what [int(...)] made of the input, [None] when it raised [ValueError].
    Choice 1 also reads the clock. *)

Inductive choice : Type :=
  | Choice1 (now pid diagnosis treatment notes : pystr)
  | Choice2 (pid : pystr)
  | Choice3 (pid : pystr)
  | Choice4
  | Choice5
  | Choice6 (idx : option Z) (field value : pystr)
  | Choice7
  | ChoiceOther.

Definition menu_banner : io unit :=
  _ ← print ([10] ++ py "===== Healthcare Blockchain Menu =====");
  _ ← print (py "1) Add patient record");
  _ ← print (py "2) Retrieve ALL records by Patient ID");
  _ ← print (py "3) Retrieve LATEST record by Patient ID");
  _ ← print (py "4) Print full chain");
  _ ← print (py "5) Validate blockchain");
  _ ← print (py "6) (Demo) Tamper with a block");
  print (py "7) Exit").

(** The record choice 1 builds; empty notes are left out. *)
Definition menu_record (diagnosis treatment notes : pystr) : pydict :=
  let record := [(py "diagnosis", PyStr diagnosis);
                 (py "treatment", PyStr treatment)] in
  match notes with
  | [] => record
  | _ :: _ => dict_set record (py "notes") (PyStr notes)
  end.

(** [str(ok)] *)
Definition str_bool (b : bool) : pystr := if b then py "True" else py "False".

(** The check both retrieval choices start with. *)
Definition warn_if_invalid (bc : Blockchain) : io unit :=
  '(ok, err) ← lift (validate bc);
  if negb ok then
    print2 (py "WARNING: Chain invalid ?") (default (py "None") err)
  else mret tt.

(** [bc.chain[idx].record[field] = value] *)
Definition tamper_field (bc : Blockchain) (idx : Z) (field value : pystr)
  : result Blockchain :=
  b ← list_get (chain bc) idx;
  Ok (mkBlockchain
        (<[Z.to_nat idx := set_record (dict_set (record b) field (PyStr value))
                             b]> (chain bc))
        (_patient_index bc)).

(** One pass: the object afterwards, and whether the loop goes on. *)
Definition menu_step (bc : Blockchain) (c : choice) : io (Blockchain * bool) :=
  _ ← menu_banner;
  match c with
  | Choice1 now pid diagnosis treatment notes =>
      let record := menu_record diagnosis treatment notes in
      let '(bc', r) := add_record bc now pid record in
      new_block ← lift r;
      _ ← print2 (py "Record added in block index:")
            (py (pretty (index new_block)));
      mret (bc', true)
  | Choice2 pid =>
      _ ← warn_if_invalid bc;
      blocks ← lift (get_all_records bc pid);
      _ ← match blocks with
          | [] => print2 (py "No records found for:") pid
          | _ :: _ =>
              _ ← print ([10] ++ py "All records for patient " ++ pid
                         ++ py ":");
              for_each blocks _print_block
          end;
      mret (bc, true)
  | Choice3 pid =>
      _ ← warn_if_invalid bc;
      latest ← lift (get_latest_record bc pid);
      _ ← match latest with
          | None => print2 (py "No records found for:") pid
          | Some b =>
              _ ← print ([10] ++ py "Latest record for patient " ++ pid
                         ++ py ":");
              _print_block b
          end;
      mret (bc, true)
  | Choice4 =>
      _ ← print_chain bc;
      mret (bc, true)
  | Choice5 =>
      '(ok, err) ← lift (validate bc);
      _ ← print2 (py "Blockchain valid:") (str_bool ok);
      _ ← match err with
          | Some reason =>
              match reason with
              | [] => mret tt
              | _ :: _ => print2 (py "Reason:") reason
              end
          | None => mret tt
          end;
      mret (bc, true)
  | Choice6 None _ _ =>
      _ ← print (py "Please enter a valid integer index.");
      mret (bc, true)
  | Choice6 (Some idx) field value =>
      if (idx <=? 0)%Z || (Z.of_nat (length (chain bc)) <=? idx)%Z then
        _ ← print (py "Invalid index.");
        mret (bc, true)
      else if negb (bool_decide (field ∈ [py "diagnosis"; py "treatment";
                                           py "notes"])) then
        _ ← print (py "Unsupported field.");
        mret (bc, true)
      else
        bc' ← lift (tamper_field bc idx field value);
        _ ← print (py "Tampered block " ++ py (pretty idx)
                   ++ py ". Now validate to see failure.");
        mret (bc', true)
  | Choice7 =>
      _ ← print (py "Exiting. Bye!");
      mret (bc, false)
  | ChoiceOther =>
      _ ← print (py "Invalid choice. Try again.");
      mret (bc, true)
  end.

(** The loop over what the user types, until choice 7 or an exception. *)
Fixpoint menu_loop (bc : Blockchain) (choices : list choice)
  : io Blockchain :=
  match choices with
  | [] => mret bc
  | c :: choices' =>
      '(bc', again) ← menu_step bc c;
      if (again : bool) then menu_loop bc' choices' else mret bc'
  end.

(** [menu()]; [now] is the clock when the chain is constructed. *)
Definition menu (now : pystr) (choices : list choice) : io Blockchain :=
  bc ← lift (init now);
  menu_loop bc choices.

(** ** Further notions about chains *)

(** The block the second [add_record] of the run returned. *)
Definition demo_block2 : Block :=
  match (add_record demo1 demo_now (py "patient-2") fracture).2 with
  | Ok b => b
  | Raise _ => mkBlock 0 [] [] [] [] []
  end.

Definition genesis_record : pydict := [(py "note", PyStr (py "Genesis Block"))].

(** The fields [_create_genesis_block] fixes. *)
Definition is_genesis (g : Block) : Prop :=
  index g = 0%Z /\ patient_id g = py "0" /\ record g = genesis_record /\
  previous_hash g = py "0".

(** Assignment to the stored hash from outside the class. *)
Definition set_hash (h : pystr) (b : Block) : Block :=
  mkBlock (index b) (timestamp b) (patient_id b) (record b) (previous_hash b) h.


(** A forger rewrites a block and stores the hash of what he wrote. *)
Definition forge (r : pydict) (b : Block) : Block :=
  match recomputed (set_record r b) with
  | Ok h => set_hash h (set_record r b)
  | Raise _ => set_record r b
  end.

(** The two code units of a character outside the basic plane. *)
Definition high_surrogate (c : N) : N :=
  N.lor 55296 (N.land (N.shiftr (c - 65536) 10) 1023).

Definition low_surrogate (c : N) : N :=
  N.lor 56320 (N.land (c - 65536) 1023).

(** Every character outside the basic plane replaced by its two
    surrogates. *)
Fixpoint split_astral (s : pystr) : pystr :=
  match s with
  | [] => []
  | c :: s' =>
      if 65536 <=? c then high_surrogate c :: low_surrogate c :: split_astral s'
      else c :: split_astral s'
  end.

(** The same in every string a value holds, keys apart. *)
Fixpoint split_astral_value (v : pyvalue) : pyvalue :=
  match v with
  | PyStr s => PyStr (split_astral s)
  | PyList l => PyList (map split_astral_value l)
  | PyDict d => PyDict (map (Json.on_snd split_astral_value) d)
  | _ => v
  end.

(** The same in the timestamp, the patient id and the record of a block. *)
Definition split_astral_block (b : Block) : Block :=
  mkBlock (index b) (split_astral (timestamp b)) (split_astral (patient_id b))
    (map (Json.on_snd split_astral_value) (record b)) (previous_hash b)
    (hash b).

(** A chain with a patient id outside the basic plane. *)
Definition demo_astral : Blockchain :=
  (add_record demo0 demo_now (py "patient-" ++ [128512]) flu).1.

(** The block of [demo_astral] with that patient id. *)
Definition demo_astral_block : Block :=
  default (mkBlock 0 [] [] [] [] []) (chain demo_astral !! 1%nat).

(** Records as the menu builds them: every value a string. *)
Definition string_record (r : pydict) : Prop :=
  Forall (fun kv => exists s, kv.2 = PyStr s) r.

(** What holds of the chain throughout a run of the menu: all that holds of
    a chain of the class, the stored hashes of tampered blocks apart. *)
Record menu_ok (bc : Blockchain) : Prop := mkMenuOk {
  mo_nonempty : chain bc <> [];
  mo_index : forall i b, chain bc !! i = Some b -> index b = Z.of_nat i;
  mo_link : forall i prev cur,
    chain bc !! i = Some prev -> chain bc !! S i = Some cur ->
    previous_hash cur = hash prev;
  mo_patients : forall p,
    _patient_index bc !! p = index_entry (positions p 1 (tail (chain bc)));
  mo_records : Forall (fun b => string_record (record b)) (chain bc)
}.

(** A computation that prints and returns [a]. *)
Definition io_returns {A} (m : io A) (a : A) : Prop :=
  exists out, m = (out, Ok a).

(** The fields choice 6 accepts. *)
Definition tamper_fields : list pystr :=
  [py "diagnosis"; py "treatment"; py "notes"].

(** A session at the menu: two records, a look at one, a tampering, a
    validation, the exit. *)
Definition demo_choices : list choice :=
  [ Choice1 demo_now (py "patient-1") (py "flu") (py "rest") [];
    Choice1 demo_now (py "patient-2") (py "fracture") (py "cast")
      (py "left arm");
    Choice3 (py "patient-2");
    Choice6 (Some 1%Z) (py "diagnosis") (py "cold");
    Choice5;
    Choice7 ].

Definition demo_session : io Blockchain := menu demo_now demo_choices.

Definition demo_session_chain : Blockchain :=
  match demo_session.2 with
  | Ok bc => bc
  | Raise _ => mkBlockchain [] ∅
  end.

(** ** Reading the canonical text back *)

(** Unicode scalar values: code points that are no surrogates. *)
Definition scalar (c : N) : bool :=
  (c <? 55296) || ((57344 <=? c) && (c <? 1114112)).

(** Values whose strings, keys included, hold scalar values only and whose
    parts all have an encoding. *)
Fixpoint clean (v : pyvalue) : bool :=
  match v with
  | PyStr s => forallb scalar s
  | PyList l => forallb clean l
  | PyDict d => forallb (fun kv => forallb scalar kv.1 && clean kv.2) d
  | PyOther => false
  | _ => true
  end.

Definition unhex_digit (c : N) : N := if c <? 58 then c - 48 else c - 87.

Definition unhex4 (a b c d : N) : N :=
  4096 * unhex_digit a + 256 * unhex_digit b + 16 * unhex_digit c
  + unhex_digit d.

(** One character read back from the front of an escaped text, and the
    rest of the text. *)
Definition unescape (s : pystr) : option (N * pystr) :=
  match s with
  | [] => None
  | c0 :: s0 =>
      if negb (c0 =? 92) then Some (c0, s0)
      else match s0 with
      | [] => None
      | c1 :: rest =>
          if c1 =? 92 then Some (92, rest)
          else if c1 =? 34 then Some (34, rest)
          else if c1 =? 98 then Some (8, rest)
          else if c1 =? 102 then Some (12, rest)
          else if c1 =? 110 then Some (10, rest)
          else if c1 =? 114 then Some (13, rest)
          else if c1 =? 116 then Some (9, rest)
          else if c1 =? 117 then
            match rest with
            | a :: b :: c :: d :: rest' =>
                let u := unhex4 a b c d in
                if (55296 <=? u) && (u <? 56320) then
                  match rest' with
                  | _ :: _ :: a' :: b' :: c' :: d' :: rest'' =>
                      Some (65536 + (u - 55296) * 1024
                            + (unhex4 a' b' c' d' - 56320), rest'')
                  | _ => None
                  end
                else Some (u, rest')
            | _ => None
            end
          else None
      end
  end.

(** The compact text of a value all of whose parts have an encoding. *)
Fixpoint text (v : pyvalue) : pystr :=
  match v with
  | PyNone => py "null"
  | PyBool true => py "true"
  | PyBool false => py "false"
  | PyInt z => py (pretty z)
  | PyStr s => Json.encode_basestring_ascii s
  | PyList l => [91] ++ Json.join_comma (map text l) ++ [93]
  | PyDict d =>
      [123] ++ Json.join_comma (map (fun kv => Json.member (kv.1, text kv.2)) d)
      ++ [125]
  | PyOther => []
  end.

Definition is_digit (c : N) : bool := (48 <=? c) && (c <=? 57).

(** The text that follows does not go on with a digit. *)
Definition ends_number (r : pystr) : bool :=
  match r with
  | [] => true
  | c :: _ => negb (is_digit c)
  end.

(** What the first character of a text tells about the value. *)
Definition tag_of_char (c : N) : nat :=
  if c =? 110 then 0 else if c =? 116 then 1 else if c =? 102 then 2
  else if (c =? 45) || is_digit c then 3
  else if c =? 34 then 4 else if c =? 91 then 5 else if c =? 123 then 6
  else 7.

Definition tag (v : pyvalue) : nat :=
  match v with
  | PyNone => 0
  | PyBool true => 1
  | PyBool false => 2
  | PyInt _ => 3
  | PyStr _ => 4
  | PyList _ => 5
  | PyDict _ => 6
  | PyOther => 8
  end.

(** What follows the first chunk of a sequence: the other chunks, each after
    a comma, then the closing character. *)
Fixpoint tail_text (close : N) (chunks : list pystr) (r : pystr) : pystr :=
  match chunks with
  | [] => close :: r
  | c :: chunks' => 44 :: c ++ tail_text close chunks' r
  end.

(** Where the text of a value ends, and which value it was. *)
Definition reads_back (v1 : pyvalue) : Prop :=
  forall (v2 : pyvalue) (r1 r2 : pystr),
    clean v1 = true -> clean v2 = true ->
    ends_number r1 = true -> ends_number r2 = true ->
    text v1 ++ r1 = text v2 ++ r2 ->
    v1 = v2 /\ r1 = r2.

(** The blocks of a patient, genesis apart, in chain order. *)
Definition records_of (p : pystr) (blocks : list Block) : list Block :=
  filter (fun b => patient_id b = p) (tail blocks).

(** Both checks of [validate] pass at every position before [i]. *)
Definition passes_before (blocks : list Block) (i : nat) : Prop :=
  forall j, (1 <= j < i)%nat ->
    link_ok blocks j = true /\ integrity_ok blocks j = true.

(** * Properties *)

(** Linear arithmetic with division by a constant. *)
Ltac div_lia := zify; Z.to_euclidean_division_equations; lia.

(** ** The order on strings *)

Section StrOrder.

Lemma str_ltb_irrefl (a : pystr) : str_ltb a a = false.
Proof.
  induction a as [|x a IH]; simpl; [done|].
  by rewrite N.ltb_irrefl.
Qed.

Lemma str_ltb_trans (a b c : pystr) :
  str_ltb a b = true -> str_ltb b c = true -> str_ltb a c = true.
Proof.
  revert b c. induction a as [|x a IH]; intros [|y b] [|z c]; simpl; try done.
  destruct (N.ltb_spec x y), (N.ltb_spec y x), (N.ltb_spec y z),
    (N.ltb_spec z y), (N.ltb_spec x z), (N.ltb_spec z x);
    try done; try lia.
  apply IH.
Qed.

Lemma str_ltb_total (a b : pystr) :
  str_ltb a b = false -> str_ltb b a = false -> a = b.
Proof.
  revert b. induction a as [|x a IH]; intros [|y b]; simpl; try done.
  destruct (N.ltb_spec x y), (N.ltb_spec y x); try done; try lia.
  intros Hab Hba. assert (x = y) as -> by lia. f_equal. by apply IH.
Qed.

Lemma str_ltb_asym (a b : pystr) :
  str_ltb a b = true -> str_ltb b a = false.
Proof.
  intros Hab. destruct (str_ltb b a) eqn:Hba; [|done].
  pose proof (str_ltb_trans _ _ _ Hab Hba) as Haa.
  by rewrite str_ltb_irrefl in Haa.
Qed.

End StrOrder.

(** ** Sorting the items of a dict *)

Section Sorting.
Context {A : Type}.
Implicit Types (x y : pystr * A) (l : list (pystr * A)).

Lemma insert_item_perm x l : Json.insert_item x l ≡ₚ x :: l.
Proof.
  induction l as [|y l IH]; simpl; [done|].
  destruct (str_ltb x.1 y.1); [done|].
  rewrite IH. apply Permutation_swap.
Qed.

Lemma sort_items_perm l : Json.sort_items l ≡ₚ l.
Proof.
  induction l as [|x l IH]; simpl; [done|].
  by rewrite insert_item_perm, IH.
Qed.

Lemma insert_item_sorted x l :
  x.1 ∉ map fst l ->
  StronglySorted key_lt l -> StronglySorted key_lt (Json.insert_item x l).
Proof.
  intros Hx Hs. induction Hs as [|y l Hs IH Hy]; simpl.
  { repeat constructor. }
  apply not_elem_of_cons in Hx as [Hxy Hx].
  destruct (str_ltb x.1 y.1) eqn:Hlt.
  - constructor; [by constructor|].
    constructor; [done|].
    eapply Forall_impl; [exact Hy|].
    intros z Hz. unfold key_lt in *. by eapply str_ltb_trans.
  - constructor; [by apply IH|].
    rewrite insert_item_perm. constructor; [|done].
    unfold key_lt. destruct (str_ltb y.1 x.1) eqn:Hgt; [done|].
    destruct Hxy. by apply str_ltb_total.
Qed.

Lemma sort_items_sorted l :
  NoDup (map fst l) -> StronglySorted key_lt (Json.sort_items l).
Proof.
  induction l as [|x l IH]; simpl; intros Hnd.
  { constructor. }
  apply NoDup_cons in Hnd as [Hx Hnd].
  apply insert_item_sorted; [|by apply IH].
  by rewrite sort_items_perm.
Qed.

(** A list has at most one strictly sorted arrangement. *)
Lemma sorted_perm_eq l1 l2 :
  StronglySorted key_lt l1 -> StronglySorted key_lt l2 ->
  l1 ≡ₚ l2 -> l1 = l2.
Proof.
  intros Hs1. revert l2.
  induction Hs1 as [|x l1 Hs1 IH Hx]; intros l2 Hs2 Hp.
  { by apply Permutation_nil_l in Hp. }
  destruct Hs2 as [|y l2 Hs2 Hy].
  { by apply Permutation_nil_r in Hp. }
  assert (x = y) as ->.
  { assert (x ∈ y :: l2) as Hin1 by (rewrite <- Hp; left).
    assert (y ∈ x :: l1) as Hin2 by (rewrite Hp; left).
    apply elem_of_cons in Hin1 as [?|Hin1]; [done|].
    apply elem_of_cons in Hin2 as [?|Hin2]; [done|].
    rewrite Forall_forall in Hx, Hy.
    pose proof (Hx _ Hin2) as H1. pose proof (Hy _ Hin1) as H2.
    unfold key_lt in *. apply str_ltb_asym in H1. congruence. }
  f_equal. apply IH; [done|]. by apply Permutation_cons_inv in Hp.
Qed.

(** The sorted list depends on the items only, not on the order in which
    they were inserted. *)
Lemma sort_items_order_independent l1 l2 :
  NoDup (map fst l1) -> l1 ≡ₚ l2 -> Json.sort_items l1 = Json.sort_items l2.
Proof.
  intros Hnd Hp. apply sorted_perm_eq.
  - by apply sort_items_sorted.
  - apply sort_items_sorted. by rewrite <- Hp.
  - by rewrite !sort_items_perm.
Qed.

End Sorting.

Section SortingMap.
Context {A B : Type} (f : A -> B).

Lemma insert_item_on_snd (x : pystr * A) (l : list (pystr * A)) :
  Json.insert_item (Json.on_snd f x) (map (Json.on_snd f) l)
  = map (Json.on_snd f) (Json.insert_item x l).
Proof.
  induction l as [|y l IH]; simpl; [done|].
  destruct (str_ltb x.1 y.1); simpl; [done|]. by rewrite IH.
Qed.

(** Encoding the values first and sorting afterwards gives what the
    encoder does: sort the items, then encode each value. *)
Lemma sort_items_on_snd (l : list (pystr * A)) :
  Json.sort_items (map (Json.on_snd f) l)
  = map (Json.on_snd f) (Json.sort_items l).
Proof.
  induction l as [|x l IH]; simpl; [done|].
  by rewrite IH, insert_item_on_snd.
Qed.

Lemma on_snd_keys (l : list (pystr * A)) :
  map fst (map (Json.on_snd f) l) = map fst l.
Proof. induction l as [|x l IH]; [done|]. cbn. by f_equal. Qed.

End SortingMap.

(** ** Results *)

Lemma bind_Ok_inv {A B} (r : result A) (k : A -> result B) (b : B) :
  (r ≫= k) = Ok b -> exists a, r = Ok a /\ k a = Ok b.
Proof. destruct r as [a|e]; [|done]. intros H. by exists a. Qed.

Lemma bind_Raise_inv {A B} (r : result A) (k : A -> result B) (e : exn) :
  (r ≫= k) = Raise e -> r = Raise e \/ exists a, r = Ok a /\ k a = Raise e.
Proof.
  destruct r as [a|e']; intros H; [right; by exists a|left; by inversion H].
Qed.

Section Results.
Context {A : Type}.

Lemma collect_map_Ok (l : list A) : collect (map Ok l) = Ok l.
Proof. induction l as [|a l IH]; simpl; [done|]. by rewrite IH. Qed.

Lemma collect_Ok_inv (rs : list (result A)) (l : list A) :
  collect rs = Ok l -> rs = map Ok l.
Proof.
  revert l. induction rs as [|r rs IH]; simpl; intros l H.
  { by inversion H. }
  apply bind_Ok_inv in H as (a & -> & H).
  apply bind_Ok_inv in H as (l' & Hl' & H).
  inversion H; subst. simpl. f_equal. by apply IH.
Qed.

Lemma collect_Raise_inv (rs : list (result A)) (e : exn) :
  collect rs = Raise e -> In (Raise e) rs.
Proof.
  induction rs as [|r rs IH]; simpl; [done|]. intros H.
  apply bind_Raise_inv in H as [->|(a & -> & H)]; [by left|].
  apply bind_Raise_inv in H as [H|(l & _ & H)]; [|done].
  right. by apply IH.
Qed.

End Results.

(** ** Induction on values *)

Section PyvalueInd.
Variable P : pyvalue -> Prop.
Hypothesis HNone : P PyNone.
Hypothesis HBool : forall b, P (PyBool b).
Hypothesis HInt : forall z, P (PyInt z).
Hypothesis HStr : forall s, P (PyStr s).
Hypothesis HList : forall l, Forall P l -> P (PyList l).
Hypothesis HDict : forall d, Forall (fun kv => P kv.2) d -> P (PyDict d).
Hypothesis HOther : P PyOther.

Fixpoint pyvalue_nested_ind (v : pyvalue) : P v :=
  match v with
  | PyNone => HNone
  | PyBool b => HBool b
  | PyInt z => HInt z
  | PyStr s => HStr s
  | PyList l =>
      HList l
        ((fix go (l : list pyvalue) : Forall P l :=
            match l with
            | [] => @List.Forall_nil _ P
            | v :: l' =>
                @List.Forall_cons _ P v l' (pyvalue_nested_ind v) (go l')
            end) l)
  | PyDict d =>
      HDict d
        ((fix go (d : list (pystr * pyvalue))
            : Forall (fun kv => P kv.2) d :=
            match d with
            | [] => @List.Forall_nil _ _
            | kv :: d' =>
                @List.Forall_cons _ _ kv d' (pyvalue_nested_ind kv.2) (go d')
            end) d)
  | PyOther => HOther
  end.

End PyvalueInd.

(** ** The encoder *)

Section Encoder.

Lemma encode_members_Ok (ms : list (pystr * pystr)) :
  Json.encode_members (map (Json.on_snd Ok) ms)
  = Ok ([123] ++ Json.join_comma (map Json.member ms) ++ [125]).
Proof.
  unfold Json.encode_members.
  replace (map Json.lift_snd (map (Json.on_snd Ok) ms)) with (map Ok ms).
  { by rewrite collect_map_Ok. }
  induction ms as [|[k e] ms IH]; simpl; [done|]. by rewrite <- IH.
Qed.

Lemma encode_members_Ok_inv (items : list (pystr * result pystr)) s :
  Json.encode_members items = Ok s ->
  exists ms, items = map (Json.on_snd Ok) ms /\
    s = [123] ++ Json.join_comma (map Json.member ms) ++ [125].
Proof.
  unfold Json.encode_members. intros H.
  apply bind_Ok_inv in H as (ms & Hms & H). exists ms.
  split; [|by inversion H].
  apply collect_Ok_inv in Hms. clear H. revert ms Hms.
  induction items as [|[k r] items IH]; intros [|[k' e] ms] H;
    try done.
  simpl in H. inversion H as [[H1 H2]].
  destruct r as [a|e']; [|done]. simpl in H1. inversion H1; subst.
  simpl. unfold Json.on_snd at 1. simpl. f_equal. by apply IH.
Qed.

Lemma encode_members_Raise_inv (items : list (pystr * result pystr)) e :
  Json.encode_members items = Raise e -> exists k, In (k, Raise e) items.
Proof.
  unfold Json.encode_members. intros H.
  apply bind_Raise_inv in H as [H|(ms & _ & H)]; [|done].
  apply collect_Raise_inv in H. apply in_map_iff in H as ([k r] & H & Hin).
  destruct r as [a|e']; [done|]. inversion H; subst. by exists k.
Qed.

Lemma encode_elements_Ok (es : list pystr) :
  Json.encode_elements (map Ok es) = Ok ([91] ++ Json.join_comma es ++ [93]).
Proof. unfold Json.encode_elements. by rewrite collect_map_Ok. Qed.

Lemma encode_elements_Ok_inv (items : list (result pystr)) s :
  Json.encode_elements items = Ok s ->
  exists es, items = map Ok es /\ s = [91] ++ Json.join_comma es ++ [93].
Proof.
  unfold Json.encode_elements. intros H.
  apply bind_Ok_inv in H as (es & Hes & H). exists es.
  split; [by apply collect_Ok_inv|by inversion H].
Qed.

(** The encoder sorts the items of a dict, then encodes each value. *)
Lemma dumps_PyDict (d : pydict) :
  Json.dumps (PyDict d)
  = Json.encode_members (map (Json.on_snd Json.dumps) (Json.sort_items d)).
Proof. simpl. by rewrite sort_items_on_snd. Qed.

(** [TypeError] is the only exception of the encoder. *)
Lemma dumps_Raise (v : pyvalue) (e : exn) :
  Json.dumps v = Raise e -> e = TypeError.
Proof.
  revert e. induction v as [| [] |z|s0|l IH|d IH|] using pyvalue_nested_ind;
    intros e H; simpl in H; try done.
  - unfold Json.encode_elements in H.
    apply bind_Raise_inv in H as [H|(es & _ & H)]; [|done].
    apply collect_Raise_inv, in_map_iff in H as (v & Hv & Hin).
    rewrite Forall_forall in IH. eapply IH; [|done].
    by apply list_elem_of_In.
  - apply encode_members_Raise_inv in H as [k Hin].
    apply list_elem_of_In in Hin. rewrite sort_items_perm in Hin.
    apply list_elem_of_In, in_map_iff in Hin as ([k' v] & Hv & Hin).
    inversion Hv; subst. rewrite Forall_forall in IH.
    eapply (IH (k, v)); [|done]. by apply list_elem_of_In.
  - by inversion H.
Qed.

End Encoder.

(** ** Which values the encoder accepts *)

Section Serializable.

Lemma dumps_serializable (v : pyvalue) :
  serializable v = true -> exists s, Json.dumps v = Ok s.
Proof.
  induction v as [| [] |z|s0|l IH|d IH|] using pyvalue_nested_ind;
    simpl; intros Hs; try done; try by eexists.
  - assert (exists es, map Json.dumps l = map Ok es) as [es ->].
    { induction IH as [|v l Hv _ IHl]; [by exists []|].
      simpl in Hs. apply andb_prop in Hs as [Hs1 Hs2].
      destruct (Hv Hs1) as [e Hd], (IHl Hs2) as [es Hes].
      exists (e :: es). simpl. by rewrite Hd, Hes. }
    rewrite encode_elements_Ok. by eexists.
  - assert (exists ms, map (Json.on_snd Json.dumps) d
                       = map (Json.on_snd Ok) ms) as [ms ->].
    { induction IH as [|[k v] d Hv _ IHd]; [by exists []|].
      simpl in Hs. apply andb_prop in Hs as [Hs1 Hs2].
      destruct (Hv Hs1) as [e Hd], (IHd Hs2) as [ms Hms].
      exists ((k, e) :: ms). simpl. rewrite <- Hms.
      unfold Json.on_snd at 1 3. simpl in *. by rewrite Hd. }
    rewrite sort_items_on_snd, encode_members_Ok. by eexists.
Qed.

Lemma dumps_Ok_serializable (v : pyvalue) (s : pystr) :
  Json.dumps v = Ok s -> serializable v = true.
Proof.
  revert s. induction v as [| [] |z|s0|l IH|d IH|] using pyvalue_nested_ind;
    simpl; intros s Hd; try done.
  - apply encode_elements_Ok_inv in Hd as (es & Hes & _).
    clear s. revert es Hes.
    induction IH as [|v l Hv _ IHl]; intros [|e es] Hes; try done.
    simpl in *. inversion Hes as [[H1 H2]].
    by rewrite (Hv _ H1), (IHl _ H2).
  - apply encode_members_Ok_inv in Hd as (ms & Hms & _).
    apply forallb_forall. intros [k v] Hin.
    rewrite Forall_forall in IH.
    assert ((k, Json.dumps v) ∈ map (Json.on_snd Ok) ms) as Hin'.
    { rewrite <- Hms, sort_items_perm. apply list_elem_of_In, in_map_iff.
      by exists (k, v). }
    apply list_elem_of_In, in_map_iff in Hin' as ([k' e] & He & _).
    inversion He as [[H1 H2]].
    eapply (IH (k, v)); [by apply list_elem_of_In|]. simpl. by symmetry.
Qed.

Lemma dumps_not_serializable (v : pyvalue) :
  serializable v = false -> Json.dumps v = Raise TypeError.
Proof.
  intros Hs. destruct (Json.dumps v) as [s|e] eqn:Hd.
  - apply dumps_Ok_serializable in Hd. congruence.
  - by rewrite (dumps_Raise _ _ Hd).
Qed.

End Serializable.

(** ** The encoder writes ASCII only *)

Section Ascii.

Local Ltac literal := unfold is_ascii; repeat constructor.

Lemma hex_digit_ascii (n : N) : n < 16 -> Json.hex_digit n < 128.
Proof. unfold Json.hex_digit. destruct (N.ltb_spec n 10); lia. Qed.

Lemma u_escape_ascii (n : N) : is_ascii (Json.u_escape n).
Proof.
  unfold Json.u_escape, Json.hex4. apply Forall_app. split; [literal|].
  repeat (constructor; [apply hex_digit_ascii; div_lia|]). constructor.
Qed.

Lemma escape_char_ascii (c : N) : is_ascii (Json.escape_char c).
Proof.
  unfold Json.escape_char.
  do 7 (case_match; [by literal|]).
  destruct ((32 <=? c) && (c <=? 126)) eqn:Hr.
  { apply andb_prop in Hr as [_ ?%N.leb_le]. repeat constructor. lia. }
  case_match; [apply u_escape_ascii|].
  apply Forall_app. split; apply u_escape_ascii.
Qed.

Lemma encode_basestring_ascii_ascii (s : pystr) :
  is_ascii (Json.encode_basestring_ascii s).
Proof.
  unfold Json.encode_basestring_ascii.
  apply Forall_app. split; [literal|].
  apply Forall_app. split; [|literal].
  induction s as [|c s IH]; simpl; [constructor|].
  apply Forall_app. split; [apply escape_char_ascii|done].
Qed.

Lemma pretty_N_char_ascii (x : N) : N_of_ascii (pretty_N_char x) < 128.
Proof. unfold pretty_N_char. by repeat case_match. Qed.

Lemma pretty_N_go_ascii (x : N) (s : string) :
  is_ascii (py s) -> is_ascii (py (pretty_N_go x s)).
Proof.
  revert s. induction (N.lt_wf_0 x) as [x _ IH]; intros s Hs.
  destruct (decide (x = 0)) as [->|Hx]; [by rewrite pretty_N_go_0|].
  rewrite pretty_N_go_step by lia. apply IH.
  - apply N.div_lt; lia.
  - constructor; [apply pretty_N_char_ascii|done].
Qed.

Lemma pretty_N_ascii (x : N) : is_ascii (py (pretty x)).
Proof.
  unfold pretty, pretty_N. case_decide; [literal|].
  apply pretty_N_go_ascii. constructor.
Qed.

Lemma pretty_Z_ascii (z : Z) : is_ascii (py (pretty z)).
Proof.
  destruct z as [|p|p]; [literal| |].
  - apply (pretty_N_ascii (Npos p)).
  - change (is_ascii (45 :: py (pretty (Npos p)))).
    constructor; [done|apply pretty_N_ascii].
Qed.

Lemma pretty_nat_ascii (n : nat) : is_ascii (py (pretty n)).
Proof. apply pretty_N_ascii. Qed.

Lemma join_comma_ascii (chunks : list pystr) :
  Forall is_ascii chunks -> is_ascii (Json.join_comma chunks).
Proof.
  induction 1 as [|c cs Hc Hcs IH]; simpl; [constructor|].
  destruct cs as [|c' cs]; [done|].
  apply Forall_app. split; [done|]. constructor; [done|exact IH].
Qed.

Lemma dumps_ascii (v : pyvalue) (s : pystr) :
  Json.dumps v = Ok s -> is_ascii s.
Proof.
  revert s. induction v as [| [] |z|s0|l IH|d IH|] using pyvalue_nested_ind;
    simpl; intros s Hd; try done.
  1-3: inversion Hd; literal.
  - inversion Hd. apply pretty_Z_ascii.
  - inversion Hd. apply encode_basestring_ascii_ascii.
  - apply encode_elements_Ok_inv in Hd as (es & Hes & ->).
    apply Forall_app. split; [literal|].
    apply Forall_app. split; [|literal].
    apply join_comma_ascii. rewrite Forall_forall in IH.
    apply Forall_forall.
    intros e He.
    assert (In (Ok e) (map Json.dumps l)) as Hin.
    { rewrite Hes. apply in_map. by apply list_elem_of_In. }
    apply in_map_iff in Hin as (v & Hv & Hin).
    eapply IH; [by apply list_elem_of_In|done].
  - apply encode_members_Ok_inv in Hd as (ms & Hms & ->).
    apply Forall_app. split; [literal|].
    apply Forall_app. split; [|literal].
    apply join_comma_ascii. rewrite Forall_forall in IH.
    apply Forall_forall.
    intros m Hm. apply list_elem_of_In, in_map_iff in Hm as ([k e] & <- & Hm).
    change (is_ascii (Json.encode_basestring_ascii k ++ [58] ++ e)).
    apply Forall_app. split; [apply encode_basestring_ascii_ascii|].
    constructor; [done|].
    assert ((k, Ok e) ∈ map (Json.on_snd Json.dumps) d) as Hin.
    { rewrite <- (sort_items_perm (map _ d)), Hms.
      apply list_elem_of_In, in_map_iff. by exists (k, e). }
    apply list_elem_of_In, in_map_iff in Hin as ([k' v] & Hv & Hin).
    inversion Hv; subst.
    eapply (IH (k, v)); [by apply list_elem_of_In|done].
Qed.

Lemma encode_ascii (s : pystr) : is_ascii s -> Utf8.encode s = Ok s.
Proof.
  unfold Utf8.encode. intros Hs.
  replace (map Utf8.encode_char s) with (map Ok (map (fun c => [c]) s)).
  - rewrite collect_map_Ok. simpl. f_equal.
    clear Hs. induction s as [|c s IH]; simpl; [done|]. by rewrite IH.
  - induction Hs as [|c s Hc Hs IH]; simpl; [done|]. rewrite IH. f_equal.
    unfold Utf8.encode_char, Utf8.is_surrogate, Utf8.char_bytes.
    destruct (N.leb_spec 55296 c), (N.leb_spec 1114112 c),
      (N.ltb_spec c 128); simpl; try lia; done.
Qed.

End Ascii.

(** ** UTF-8 keeps the order of code points *)

Section Utf8Order.








End Utf8Order.

(** ** The digest *)

Section Digest.



Lemma digest_length (msg : list N) : length (Sha256.digest msg) = 32%nat.
Proof. reflexivity. Qed.




End Digest.

(** ** [compute_hash] *)

Section ComputeHash.
Implicit Types (i : Z) (t p ph : pystr) (r : pydict).

(** The text is ASCII, so encoding it never fails and changes nothing. *)
Lemma compute_hash_dumps i t p r ph :
  compute_hash i t p r ph
  = (s ← Json.dumps (Spec.payload i t p r ph); Ok (Sha256.hexdigest s)).
Proof.
  change (compute_hash i t p r ph)
    with (s ← Json.dumps (Spec.payload i t p r ph);
          b ← Utf8.encode s; Ok (Sha256.hexdigest b)).
  destruct (Json.dumps (Spec.payload i t p r ph)) as [s|e] eqn:Hd; [|done].
  cbn [mbind result_bind].
  by rewrite (encode_ascii s (dumps_ascii _ _ Hd)).
Qed.

Lemma payload_serializable i t p r ph :
  serializable (Spec.payload i t p r ph) = serializable (PyDict r).
Proof.
  unfold Spec.payload. cbn [serializable forallb snd].
  by rewrite andb_true_r.
Qed.

Lemma compute_hash_serializable i t p r ph :
  serializable (PyDict r) = true ->
  exists s, Json.dumps (Spec.payload i t p r ph) = Ok s /\
    compute_hash i t p r ph = Ok (Sha256.hexdigest s).
Proof.
  intros Hs. rewrite <- (payload_serializable i t p r ph) in Hs.
  apply dumps_serializable in Hs as [s Hd]. exists s. split; [done|].
  by rewrite compute_hash_dumps, Hd.
Qed.

Lemma compute_hash_not_serializable i t p r ph :
  serializable (PyDict r) = false ->
  compute_hash i t p r ph = Raise TypeError.
Proof.
  intros Hs. rewrite <- (payload_serializable i t p r ph) in Hs.
  apply dumps_not_serializable in Hs.
  by rewrite compute_hash_dumps, Hs.
Qed.

Lemma compute_hash_Raise i t p r ph e :
  compute_hash i t p r ph = Raise e ->
  e = TypeError /\ serializable (PyDict r) = false.
Proof.
  intros H. destruct (serializable (PyDict r)) eqn:Hs.
  - destruct (compute_hash_serializable i t p r ph Hs) as (s & _ & Hc).
    congruence.
  - rewrite (compute_hash_not_serializable i t p r ph Hs) in H.
    by inversion H.
Qed.

End ComputeHash.

(** ** Insertion order of the keys *)

Section KeyOrder.

Lemma wf_value_PyDict (d : pydict) :
  wf_value (PyDict d) = true ->
  NoDup (map fst d) /\ Forall (fun kv => wf_value kv.2 = true) d.
Proof.
  simpl. intros [Hnd Hwf]%andb_prop. split.
  - by apply bool_decide_eq_true in Hnd.
  - apply Forall_forall. intros kv Hin.
    rewrite forallb_forall in Hwf. by apply Hwf, list_elem_of_In.
Qed.

Lemma dumps_same_items (v1 v2 : pyvalue) :
  same_items v1 v2 -> wf_value v1 = true -> Json.dumps v1 = Json.dumps v2.
Proof.
  revert v2.
  induction v1 as [| [] |z|s0|l IH|d IH|] using pyvalue_nested_ind;
    intros v2 Hsame Hwf; inversion Hsame as [|l1 l2 HF|d1 d' d2 Hp HF];
    subst; try done.
  - simpl. f_equal. simpl in Hwf. clear Hsame.
    induction HF as [|v v' l l' Hv HF IHl]; [done|].
    simpl in Hwf. apply andb_prop in Hwf as [Hwf1 Hwf2].
    apply Forall_cons in IH as [IHv IH].
    simpl. rewrite (IHv v' Hv Hwf1). f_equal. by apply IHl.
  - apply wf_value_PyDict in Hwf as [Hnd Hwf].
    cbn [Json.dumps]. f_equal.
    rewrite (sort_items_order_independent
               (map (Json.on_snd Json.dumps) d)
               (map (Json.on_snd Json.dumps) d')).
    + f_equal. rewrite Hp in IH, Hwf. clear Hp Hnd Hsame.
      induction HF as [|[k v] [k' v'] l l' [Hk Hv] HF IHl]; [done|].
      apply Forall_cons in IH as [IHv IH].
      apply Forall_cons in Hwf as [Hwf1 Hwf2].
      simpl in *. subst k'. unfold Json.on_snd at 1 3. simpl.
      rewrite (IHv v' Hv Hwf1). f_equal. by apply IHl.
    + by rewrite on_snd_keys.
    + by apply Permutation_map.
Qed.

Lemma compact_json_sort_keys (v : pyvalue) :
  Spec.compact_json (sort_keys v) = Json.dumps v.
Proof.
  induction v as [| [] |z|s0|l IH|d IH|] using pyvalue_nested_ind;
    try done.
  - simpl. f_equal. rewrite map_map.
    induction IH as [|v l Hv _ IHl]; simpl; [done|]. by rewrite Hv, IHl.
  - cbn [sort_keys Spec.compact_json Json.dumps]. f_equal.
    rewrite <- sort_items_on_snd, map_map. f_equal.
    induction IH as [|[k v] l Hv _ IHl]; simpl; [done|].
    rewrite <- IHl. unfold Json.on_snd at 1 2 4. simpl in *. by rewrite Hv.
Qed.




Lemma payload_wf i t p (r : pydict) ph :
  wf_value (PyDict r) = true -> wf_value (Spec.payload i t p r ph) = true.
Proof.
  intros Hwf. unfold Spec.payload.
  cbn [wf_value forallb snd]. rewrite andb_true_r.
  apply andb_true_intro. split; [by vm_compute|].
  exact Hwf.
Qed.

Lemma payload_same_items i t p (r1 r2 : pydict) ph :
  same_items (PyDict r1) (PyDict r2) ->
  same_items (Spec.payload i t p r1 ph) (Spec.payload i t p r2 ph).
Proof.
  intros Hr. unfold Spec.payload. eapply same_dict; [done|].
  repeat constructor; simpl; first [done | apply same_refl].
Qed.

End KeyOrder.

(** From here on hashes are compared, not computed. *)
Arguments compute_hash : simpl never.
Arguments create : simpl never.
Arguments Sha256.digest : simpl never.
Arguments Sha256.hexdigest : simpl never.

(** ** Indexing *)

Section ListGet.
Context {A : Type}.
Implicit Types (l : list A).

Lemma list_get_nat l (i : nat) :
  list_get l (Z.of_nat i)
  = match l !! i with Some a => Ok a | None => Raise IndexError end.
Proof.
  unfold list_get.
  destruct (Z.ltb_spec (Z.of_nat i) 0) as [?|_]; [lia|].
  destruct (Z.ltb_spec (Z.of_nat i) 0) as [?|_]; [lia|].
  by rewrite Nat2Z.id.
Qed.

Lemma list_get_pred l (i : nat) :
  (1 <= i)%nat ->
  list_get l (Z.of_nat i - 1)
  = match l !! (i - 1)%nat with Some a => Ok a | None => Raise IndexError end.
Proof.
  intros Hi. replace (Z.of_nat i - 1)%Z with (Z.of_nat (i - 1)) by lia.
  apply list_get_nat.
Qed.

Lemma list_get_last l :
  list_get l (-1)
  = match last l with Some a => Ok a | None => Raise IndexError end.
Proof.
  unfold list_get. rewrite last_lookup.
  change (-1 <? 0)%Z with true. cbn match.
  destruct l as [|a l]; [done|].
  destruct (Z.ltb_spec (Z.of_nat (length (a :: l)) + -1) 0) as [H|_].
  { simpl in H. lia. }
  by replace (Z.to_nat (Z.of_nat (length (a :: l)) + -1))
    with (pred (length (a :: l))) by (simpl; lia).
Qed.

End ListGet.

(** ** The write path *)

Section WritePath.

Lemma create_Ok now i p r h b :
  create now i p r h = Ok b ->
  exists hh, compute_hash i now p r h = Ok hh /\ b = mkBlock i now p r h hh.
Proof.
  unfold create. intros H. apply bind_Ok_inv in H as (hh & Hc & H).
  exists hh. split; [done|]. by inversion H.
Qed.

Lemma create_serializable now i p r h :
  serializable (PyDict r) = true -> exists b, create now i p r h = Ok b.
Proof.
  intros Hs. destruct (compute_hash_serializable i now p r h Hs)
    as (s & _ & Hc).
  unfold create. rewrite Hc. by eexists.
Qed.


(** Construction never fails. *)
Lemma init_Ok now : exists genesis,
  _create_genesis_block now = Ok genesis /\
  init now = Ok (mkBlockchain [genesis] ∅).
Proof.
  destruct (create_serializable now 0 (py "0")
              [(py "note", PyStr (py "Genesis Block"))] (py "0") eq_refl)
    as [g Hg].
  exists g. split; [done|]. unfold init, _create_genesis_block. by rewrite Hg.
Qed.

(** The two ways [add_record] ends. *)
Lemma add_record_cases self now p r :
  (exists e, add_record self now p r = (self, Raise e)) \/
  (exists latest b,
     last (chain self) = Some latest /\
     create now (Z.of_nat (length (chain self))) p r (hash latest) = Ok b /\
     add_record self now p r
     = (mkBlockchain (chain self ++ [b])
          (setdefault_append (_patient_index self) p (index b)), Ok b)).
Proof.
  unfold add_record. rewrite list_get_last.
  destruct (last (chain self)) as [latest|]; [|left; by eexists].
  destruct (create _ _ _ _ _) as [b|e] eqn:Hc; [|left; by eexists].
  right. by exists latest, b.
Qed.

Lemma positions_app p i (l : list Block) (b : Block) :
  positions p i (l ++ [b])
  = positions p i l
    ++ (if bool_decide (patient_id b = p)
        then [Z.of_nat (i + length l)] else []).
Proof.
  revert i. induction l as [|a l IH]; intros i; simpl.
  { by rewrite Nat.add_0_r, app_nil_r. }
  rewrite IH, <- app_assoc.
  by replace (i + S (length l))%nat with (S i + length l)%nat by lia.
Qed.

Lemma default_index_entry (l : list Z) : default [] (index_entry l) = l.
Proof. by destruct l. Qed.

Lemma index_entry_snoc (l : list Z) (x : Z) :
  index_entry (l ++ [x]) = Some (l ++ [x]).
Proof. by destruct l. Qed.

Lemma init_inv now self : init now = Ok self -> chain_inv self.
Proof.
  destruct (init_Ok now) as (g & Hg & ->). intros [= <-].
  unfold _create_genesis_block in Hg. apply create_Ok in Hg as (hh & Hc & ->).
  split; simpl.
  - done.
  - intros [|i] b; [|done]. by intros [= <-].
  - intros [|i] b; [|done]. by intros [= <-].
  - by intros [|i] prev cur.
  - intros p. apply lookup_empty.
Qed.

Lemma add_record_inv self now p r :
  chain_inv self -> chain_inv (add_record self now p r).1.
Proof.
  intros [Hne Hidx Hhash Hlink Hpat].
  destruct (add_record_cases self now p r)
    as [[e ->]|(latest & b & Hlast & Hc & ->)]; [done|].
  apply create_Ok in Hc as (hh & Hc & ->).
  rewrite last_lookup in Hlast.
  split; cbn [chain _patient_index fst].
  - by destruct (chain self).
  - intros i b Hb. apply lookup_app_Some in Hb as [Hb|[Hlen Hb]].
    { by eapply Hidx. }
    apply list_lookup_singleton_Some in Hb as [Hi <-]. simpl. lia.
  - intros i b Hb. apply lookup_app_Some in Hb as [Hb|[Hlen Hb]].
    { by eapply Hhash. }
    by apply list_lookup_singleton_Some in Hb as [Hi <-].
  - intros i prev cur Hprev Hcur.
    apply lookup_app_Some in Hcur as [Hcur|[Hlen Hcur]].
    { rewrite lookup_app_l in Hprev
        by (apply lookup_lt_Some in Hcur; lia).
      by eapply Hlink. }
    apply list_lookup_singleton_Some in Hcur as [Hi <-]. simpl.
    assert (i = pred (length (chain self))) as -> by lia.
    rewrite lookup_app_l in Hprev by (destruct (chain self); simpl; [done|lia]).
    congruence.
  - intros q. unfold setdefault_append. rewrite Hpat, default_index_entry.
    destruct (chain self) as [|g rest] eqn:Hchain; [done|].
    cbn [tail app]. rewrite positions_app. simpl.
    destruct (decide (p = q)) as [->|Hpq].
    + rewrite lookup_insert_eq. rewrite bool_decide_eq_true_2 by done.
      rewrite index_entry_snoc. do 3 f_equal; lia.
    + rewrite lookup_insert_ne by done.
      rewrite bool_decide_eq_false_2 by done. rewrite app_nil_r.
      apply Hpat.
Qed.

Lemma reachable_inv self : reachable self -> chain_inv self.
Proof.
  induction 1 as [now self Hinit|self now p r _ IH].
  - by eapply init_inv.
  - by apply add_record_inv.
Qed.

End WritePath.

(** ** The integrity check *)

Section Validate.
Implicit Types (blocks : list Block) (range : list nat).

Lemma validate_loop_step blocks i range :
  (1 <= i)%nat ->
  validate_loop blocks (i :: range)
  = match blocks !! (i - 1)%nat, blocks !! i with
    | Some prev, Some cur =>
        if bool_decide (previous_hash cur ≠ hash prev) then
          Ok (false, Some (broken_link_msg i))
        else
          recalculated ← recomputed cur;
          if bool_decide (hash cur ≠ recalculated) then
            Ok (false, Some (hash_mismatch_msg i))
          else validate_loop blocks range
    | _, _ => Raise IndexError
    end.
Proof.
  intros Hi. cbn [validate_loop]. rewrite list_get_pred, list_get_nat by done.
  destruct (blocks !! (i - 1)%nat) as [prev|]; [|done].
  by destruct (blocks !! i) as [cur|].
Qed.

Lemma validate_loop_pass blocks i range :
  (1 <= i)%nat -> link_ok blocks i = true -> integrity_ok blocks i = true ->
  validate_loop blocks (i :: range) = validate_loop blocks range.
Proof.
  intros Hi Hl Hg. rewrite validate_loop_step by done.
  unfold link_ok, integrity_ok in *.
  destruct (blocks !! (i - 1)%nat) as [prev|]; [|done].
  destruct (blocks !! i) as [cur|]; [|done].
  apply bool_decide_eq_true in Hl, Hg.
  rewrite bool_decide_eq_false_2 by (by intros []).
  rewrite Hg. cbn [mbind result_bind].
  by rewrite bool_decide_eq_false_2 by (by intros []).
Qed.

Lemma validate_loop_broken_link blocks i range :
  (1 <= i < length blocks)%nat -> link_ok blocks i = false ->
  validate_loop blocks (i :: range) = Ok (false, Some (broken_link_msg i)).
Proof.
  intros Hi Hl. rewrite validate_loop_step by lia. unfold link_ok in Hl.
  destruct (lookup_lt_is_Some_2 blocks (i - 1)%nat) as [prev Hprev]; [lia|].
  destruct (lookup_lt_is_Some_2 blocks i) as [cur Hcur]; [lia|].
  rewrite Hprev, Hcur in *. apply bool_decide_eq_false in Hl.
  by rewrite bool_decide_eq_true_2.
Qed.

Lemma validate_loop_hash_mismatch blocks i range cur h :
  (1 <= i)%nat -> blocks !! i = Some cur -> link_ok blocks i = true ->
  recomputed cur = Ok h -> h <> hash cur ->
  validate_loop blocks (i :: range) = Ok (false, Some (hash_mismatch_msg i)).
Proof.
  intros Hi Hcur Hl Hr Hh. rewrite validate_loop_step by lia.
  unfold link_ok in Hl. rewrite Hcur in *.
  destruct (blocks !! (i - 1)%nat) as [prev|]; [|done].
  apply bool_decide_eq_true in Hl.
  rewrite bool_decide_eq_false_2 by (by intros []).
  rewrite Hr. cbn [mbind result_bind].
  by rewrite bool_decide_eq_true_2 by congruence.
Qed.

Lemma validate_loop_skip blocks pre range :
  Forall (fun j => (1 <= j)%nat /\ link_ok blocks j = true
                   /\ integrity_ok blocks j = true) pre ->
  validate_loop blocks (pre ++ range) = validate_loop blocks range.
Proof.
  induction 1 as [|j pre (Hj & Hl & Hg) _ IH]; [done|].
  cbn [app]. by rewrite validate_loop_pass.
Qed.

Lemma range_split (n i : nat) :
  (1 <= i < n)%nat ->
  seq 1 (n - 1) = seq 1 (i - 1) ++ i :: seq (S i) (n - 1 - i).
Proof.
  intros Hi. replace (n - 1)%nat with ((i - 1) + S (n - 1 - i))%nat at 1 by lia.
  rewrite seq_app. cbn [seq]. by replace (1 + (i - 1))%nat with i by lia.
Qed.

Lemma seq_passes blocks (i : nat) :
  (forall j, (1 <= j < i)%nat ->
     link_ok blocks j = true /\ integrity_ok blocks j = true) ->
  Forall (fun j => (1 <= j)%nat /\ link_ok blocks j = true
                   /\ integrity_ok blocks j = true) (seq 1 (i - 1)).
Proof.
  intros H. apply Forall_forall. intros j Hj.
  apply list_elem_of_In, in_seq in Hj.
  split; [lia|]. apply H. lia.
Qed.

Lemma validate_all_pass self :
  (forall j, (1 <= j < length (chain self))%nat ->
     link_ok (chain self) j = true /\ integrity_ok (chain self) j = true) ->
  validate self = Ok (true, None).
Proof.
  intros H. unfold validate.
  rewrite <- (app_nil_r (seq 1 _)). rewrite validate_loop_skip; [done|].
  by apply seq_passes.
Qed.

Lemma validate_broken_link self i :
  (1 <= i < length (chain self))%nat ->
  (forall j, (1 <= j < i)%nat ->
     link_ok (chain self) j = true /\ integrity_ok (chain self) j = true) ->
  link_ok (chain self) i = false ->
  validate self = Ok (false, Some (broken_link_msg i)).
Proof.
  intros Hi Hpre Hl. unfold validate. rewrite (range_split _ i) by done.
  rewrite validate_loop_skip by by apply seq_passes.
  by apply validate_loop_broken_link.
Qed.

Lemma validate_hash_mismatch self i cur h :
  (1 <= i)%nat -> chain self !! i = Some cur ->
  (forall j, (1 <= j < i)%nat ->
     link_ok (chain self) j = true /\ integrity_ok (chain self) j = true) ->
  link_ok (chain self) i = true ->
  recomputed cur = Ok h -> h <> hash cur ->
  validate self = Ok (false, Some (hash_mismatch_msg i)).
Proof.
  intros Hi Hcur Hpre Hl Hr Hh. unfold validate.
  rewrite (range_split _ i) by (apply lookup_lt_Some in Hcur; lia).
  rewrite validate_loop_skip by by apply seq_passes.
  by eapply validate_loop_hash_mismatch.
Qed.

(** The loop reads the blocks from position 1 on, and of the block before
    each only its stored hash. *)
Lemma validate_loop_ext blocks blocks' range :
  Forall (fun i => (1 <= i)%nat) range ->
  hash <$> blocks' !! 0%nat = hash <$> blocks !! 0%nat ->
  (forall i, (1 <= i)%nat -> blocks' !! i = blocks !! i) ->
  validate_loop blocks' range = validate_loop blocks range.
Proof.
  intros Hrange H0 Hrest.
  induction Hrange as [|i range Hi _ IH]; [done|].
  rewrite !validate_loop_step by done. rewrite (Hrest i Hi), IH.
  destruct (decide (i = 1%nat)) as [->|Hne].
  - cbn [Nat.sub].
    destruct (blocks' !! 0%nat) as [g'|], (blocks !! 0%nat) as [g|];
      try done.
    by injection H0 as ->.
  - by rewrite Hrest by lia.
Qed.

Lemma py_inj (s1 s2 : string) : py s1 = py s2 -> s1 = s2.
Proof.
  unfold py. intros H.
  rewrite <- (string_of_list_ascii_of_string s1),
    <- (string_of_list_ascii_of_string s2). f_equal.
  revert H. generalize (list_ascii_of_string s1) (list_ascii_of_string s2).
  induction l as [|a l IH]; intros [|b l']; simpl; try done.
  intros [= Hab Hl]. f_equal; [|by apply IH].
  by rewrite <- (ascii_N_embedding a), <- (ascii_N_embedding b), Hab.
Qed.

Lemma broken_link_msg_inj (i j : nat) :
  broken_link_msg i = broken_link_msg j -> i = j.
Proof.
  unfold broken_link_msg. intros H.
  apply app_inv_head, app_inv_tail, py_inj in H. by apply (inj pretty).
Qed.

Lemma hash_mismatch_msg_inj (i j : nat) :
  hash_mismatch_msg i = hash_mismatch_msg j -> i = j.
Proof.
  unfold hash_mismatch_msg. intros H.
  apply app_inv_head, app_inv_tail, py_inj in H. by apply (inj pretty).
Qed.

Lemma broken_link_not_hash_mismatch (i j : nat) :
  broken_link_msg i <> hash_mismatch_msg j.
Proof.
  intros H. apply (f_equal (fun s => hd 0 s)) in H.
  vm_compute in H. discriminate.
Qed.

End Validate.

(** ** Digests collide *)

Section Pigeonhole.






End Pigeonhole.

(** ** Tampering and lookups *)

Section Tamper.

Lemma tamper_Ok self (i : nat) f b :
  chain self !! i = Some b ->
  tamper self i f
  = Ok (mkBlockchain (<[i := f b]> (chain self)) (_patient_index self)).
Proof. intros Hb. unfold tamper. by rewrite list_get_nat, Hb. Qed.

Lemma tamper_Ok_inv self (i : nat) f self' :
  tamper self i f = Ok self' ->
  exists b, chain self !! i = Some b /\
    self' = mkBlockchain (<[i := f b]> (chain self)) (_patient_index self).
Proof.
  unfold tamper. rewrite list_get_nat.
  destruct (chain self !! i) as [b|]; [|done].
  intros [= <-]. by exists b.
Qed.

Lemma inv_passes self :
  chain_inv self ->
  forall j, (1 <= j < length (chain self))%nat ->
    link_ok (chain self) j = true /\ integrity_ok (chain self) j = true.
Proof.
  intros [_ _ Hhash Hlink _] j Hj. unfold link_ok, integrity_ok.
  destruct (lookup_lt_is_Some_2 (chain self) (j - 1)%nat) as [prev Hprev];
    [lia|].
  destruct (lookup_lt_is_Some_2 (chain self) j) as [cur Hcur]; [lia|].
  rewrite Hprev, Hcur. split; apply bool_decide_eq_true_2.
  - apply (Hlink (j - 1)%nat); [done|].
    by replace (S (j - 1)) with j by lia.
  - by eapply Hhash.
Qed.

Lemma passes_insert_after blocks (i j : nat) (b : Block) :
  (j < i)%nat ->
  link_ok (<[i := b]> blocks) j = link_ok blocks j /\
  integrity_ok (<[i := b]> blocks) j = integrity_ok blocks j.
Proof.
  intros Hj. unfold link_ok, integrity_ok.
  by rewrite !list_lookup_insert_ne by lia.
Qed.

Lemma positions_elem p (i : nat) (l : list Block) (z : Z) :
  z ∈ positions p i l <->
  exists j b, z = Z.of_nat (i + j) /\ l !! j = Some b /\ patient_id b = p.
Proof.
  revert i. induction l as [|a l IH]; intros i; simpl.
  { split; [by intros ?%elem_of_nil|by intros (j & b & _ & ? & _)]. }
  rewrite elem_of_app, IH. split.
  - intros [Hz|(j & b & -> & Hb & Hp)].
    + case_bool_decide as Ha; [|by apply elem_of_nil in Hz].
      apply list_elem_of_singleton in Hz as ->.
      exists 0%nat, a. by rewrite Nat.add_0_r.
    + exists (S j), b. split; [f_equal; lia|done].
  - intros ([|j] & b & -> & Hb & Hp).
    + left. injection Hb as ->. rewrite bool_decide_eq_true_2 by done.
      rewrite Nat.add_0_r. by apply list_elem_of_singleton.
    + right. exists j, b. split; [f_equal; lia|done].
Qed.

Lemma positions_sorted p (i : nat) (l : list Block) :
  StronglySorted Z.lt (positions p i l).
Proof.
  revert i. induction l as [|a l IH]; intros i; simpl; [constructor|].
  case_bool_decide; [|apply IH]. constructor; [apply IH|].
  apply Forall_forall. intros z (j & b & -> & _)%positions_elem. lia.
Qed.

Lemma collect_map_total {A B} (f : A -> result B) (l : list A) :
  Forall (fun x => exists b, f x = Ok b) l ->
  exists bs, collect (map f l) = Ok bs.
Proof.
  induction 1 as [|x l [b Hb] _ [bs IH]]; [by exists []|].
  exists (b :: bs). simpl. by rewrite Hb, IH.
Qed.

Lemma get_latest_record_last self p :
  get_latest_record self p
  = (blocks ← get_all_records self p; Ok (last blocks)).
Proof.
  unfold get_latest_record.
  destruct (get_all_records self p) as [[|b bs]|e]; try done.
  cbn [mbind result_bind]. rewrite list_get_last.
  destruct (last (b :: bs)) eqn:Hlast; [done|].
  by apply last_None in Hlast.
Qed.




(** The indices the class stores are positions of the chain. *)
Lemma patient_index_entries self p :
  reachable self ->
  forall l, _patient_index self !! p = Some l ->
    Forall (fun z => exists b, list_get (chain self) z = Ok b) l.
Proof.
  intros Hinv%reachable_inv l Hl.
  rewrite (inv_patients _ Hinv) in Hl.
  assert (l = positions p 1 (tail (chain self))) as ->.
  { destruct (positions p 1 (tail (chain self))); by inversion Hl. }
  apply Forall_forall. intros z (j & b & -> & Hb & _)%positions_elem.
  exists b. rewrite list_get_nat. rewrite lookup_tail in Hb.
  change (1 + j)%nat with (S j). by rewrite Hb.
Qed.

End Tamper.

(** * The claims *)

(** ** Test vectors of the digest (FIPS 180-4) and of the program *)

Example sha256_empty :
  Sha256.hexdigest (py "")
  = py "e3b0c44298fc1c149afbf4c8996fb92427ae41e4649b934ca495991b7852b855".
Proof. vm_compute. reflexivity. Qed.

Example sha256_abc :
  Sha256.hexdigest (py "abc")
  = py "ba7816bf8f01cfea414140de5dae2223b00361a396177a9cb410ff61f20015ad".
Proof. vm_compute. reflexivity. Qed.

Example sha256_two_blocks :
  Sha256.hexdigest
    (py "abcdbcdecdefdefgefghfghighijhijkijkljklmklmnlmnomnopnopq")
  = py "248d6a61d20638b8e5c026930c3e6039a33ce45964ff2167f6ecedd419db06c1".
Proof. vm_compute. reflexivity. Qed.

Example dumps_example :
  Json.dumps (PyDict [(py "b", PyInt 2);
                      (py "a", PyList [PyInt (-1); PyStr [34; 233; 128512; 10];
                                       PyNone; PyBool true])])
  = Ok (py "{" ++ [34] ++ py "a" ++ [34] ++ py ":[-1," ++ [34; 92; 34]
        ++ py "\u00e9\ud83d\ude00\n" ++ [34] ++ py ",null,true]," ++ [34]
        ++ py "b" ++ [34] ++ py ":2}").
Proof. vm_compute. reflexivity. Qed.

Example genesis_hash :
  compute_hash 0 demo_now (py "0") [(py "note", PyStr (py "Genesis Block"))]
    (py "0")
  = Ok (py "058bdbffca9420da8f08bf32f3c9d65ac7df3747b11c6e33731f690d5181860a").
Proof. vm_compute. reflexivity. Qed.

Lemma demo0_init : init demo_now = Ok demo0.
Proof. vm_compute. reflexivity. Qed.

Lemma demo0_reachable : reachable demo0.
Proof. exact (reachable_init _ _ demo0_init). Qed.

Lemma demo1_reachable : reachable demo1.
Proof. apply reachable_add_record, demo0_reachable. Qed.

Lemma demo2_reachable : reachable demo2.
Proof. apply reachable_add_record, demo1_reachable. Qed.

Example demo2_hashes :
  map hash (chain demo2)
  = [ py "058bdbffca9420da8f08bf32f3c9d65ac7df3747b11c6e33731f690d5181860a";
      py "9d84c41db62646b77ed5b7f01ffaf2d2a7c8897e6f27f092975b58f2fe70662a";
      py "f4095057ef5832d41498aa2e625a75985152cf7deb97c1fd308385a050e9d441" ].
Proof. vm_compute. reflexivity. Qed.

(** ** Hashing *)



(** C6.  The digest does not depend on the order in which the keys of the
    record, or of any dict inside it, were inserted; in particular the
    records [{"a": 1, "b": 2}] and [{"b": 2, "a": 1}] hash alike. *)
Theorem compute_hash_key_order (i : Z) (t p ph : pystr) :
  (forall r1 r2 : pydict,
     wf_value (PyDict r1) = true ->
     same_items (PyDict r1) (PyDict r2) ->
     compute_hash i t p r1 ph = compute_hash i t p r2 ph) /\
  compute_hash i t p [(py "a", PyInt 1); (py "b", PyInt 2)] ph
  = compute_hash i t p [(py "b", PyInt 2); (py "a", PyInt 1)] ph.
Proof.
  assert (forall r1 r2 : pydict,
     wf_value (PyDict r1) = true ->
     same_items (PyDict r1) (PyDict r2) ->
     compute_hash i t p r1 ph = compute_hash i t p r2 ph) as Hgen.
  { intros r1 r2 Hwf Hsame. rewrite !compute_hash_dumps.
    rewrite (dumps_same_items (Spec.payload i t p r1 ph)
               (Spec.payload i t p r2 ph)); [done| |].
    - by apply payload_same_items.
    - by apply payload_wf. }
  split; [exact Hgen|].
  apply Hgen; [reflexivity|].
  apply (same_dict _ [(py "b", PyInt 2); (py "a", PyInt 1)]).
  - apply Permutation_swap.
  - repeat constructor; apply same_refl.
Qed.

Lemma compute_hash_key_order_witness :
  compute_hash 1 demo_now (py "patient-1") flu (py "0")
  = compute_hash 1 demo_now (py "patient-1") (rev flu) (py "0").
Proof.
  apply (proj1 (compute_hash_key_order 1 demo_now (py "patient-1") (py "0"))).
  - reflexivity.
  - apply (same_dict _ (rev flu)).
    + apply Permutation_swap.
    + repeat constructor; apply same_refl.
Defined.

(** ** The chain *)

(** C2.  In every state reached by construction and [add_record] calls, each
    block from position 1 on stores the hash of the block before it and the
    hash of its own fields, and [validate] returns [(True, None)]. *)
Theorem reachable_chain_valid (self : Blockchain) :
  reachable self ->
  (forall (i : nat) (prev cur : Block),
     (1 <= i)%nat ->
     chain self !! (i - 1)%nat = Some prev -> chain self !! i = Some cur ->
     previous_hash cur = hash prev /\
     compute_hash (index cur) (timestamp cur) (patient_id cur) (record cur)
       (previous_hash cur) = Ok (hash cur)) /\
  validate self = Ok (true, None).
Proof.
  intros Hinv%reachable_inv. split.
  - intros i prev cur Hi Hprev Hcur. split.
    + apply (inv_link _ Hinv (i - 1)%nat); [done|].
      by replace (S (i - 1)) with i by lia.
    + by apply (inv_hash _ Hinv i).
  - by apply validate_all_pass, inv_passes.
Qed.

Lemma reachable_chain_valid_witness : validate demo2 = Ok (true, None).
Proof. exact (proj2 (reachable_chain_valid demo2 demo2_reachable)). Defined.

(** C3.  [validate] reports the first position, counted from 1, at which a
    check fails: a broken link if the block does not store the hash of the
    block before it, whatever its own hash is, else a hash mismatch if the
    hash recomputed from its fields is not the stored one; the positions
    after it are not looked at.  The reason names the position and the kind
    of failure.  If every position passes both checks the result is
    [(True, None)]. *)
Theorem validate_first_failure (self : Blockchain) :
  ((forall j, (1 <= j < length (chain self))%nat ->
      link_ok (chain self) j = true /\ integrity_ok (chain self) j = true) ->
   validate self = Ok (true, None)) /\
  (forall i : nat,
     (1 <= i < length (chain self))%nat ->
     (forall j, (1 <= j < i)%nat ->
        link_ok (chain self) j = true /\ integrity_ok (chain self) j = true) ->
     (link_ok (chain self) i = false ->
      validate self = Ok (false, Some (broken_link_msg i))) /\
     (forall (cur : Block) (h : pystr),
        chain self !! i = Some cur ->
        link_ok (chain self) i = true ->
        recomputed cur = Ok h -> h <> hash cur ->
        validate self = Ok (false, Some (hash_mismatch_msg i)))) /\
  (forall i j : nat,
     broken_link_msg i <> hash_mismatch_msg j /\
     (broken_link_msg i = broken_link_msg j -> i = j) /\
     (hash_mismatch_msg i = hash_mismatch_msg j -> i = j)).
Proof.
  split; [apply validate_all_pass|]. split.
  - intros i Hi Hpre. split.
    + by apply validate_broken_link.
    + intros cur h Hcur Hl Hr Hh.
      by apply (validate_hash_mismatch self i cur h); [lia|..].
  - intros i j. split; [apply broken_link_not_hash_mismatch|].
    split; [apply broken_link_msg_inj|apply hash_mismatch_msg_inj].
Qed.

Lemma validate_first_failure_witness :
  validate demo2 = Ok (true, None) /\
  (integrity_ok (chain demo2_unlinked) 2 = false /\
   validate demo2_unlinked = Ok (false, Some (broken_link_msg 2))) /\
  validate demo2_cold = Ok (false, Some (hash_mismatch_msg 1)).
Proof.
  split; [|split; [split|]].
  - apply (proj1 (validate_first_failure demo2)).
    intros j Hj. change (length (chain demo2)) with 3%nat in Hj.
    assert (j = 1%nat \/ j = 2%nat) as [->| ->] by lia;
      split; vm_compute; reflexivity.
  - vm_compute. reflexivity.
  - apply (proj1 (proj2 (validate_first_failure demo2_unlinked)) 2%nat).
    + vm_compute. lia.
    + intros j Hj. assert (j = 1%nat) as -> by lia.
      split; vm_compute; reflexivity.
    + vm_compute. reflexivity.
  - eapply (proj1 (proj2 (validate_first_failure demo2_cold)) 1%nat).
    + vm_compute. lia.
    + intros j Hj. lia.
    + vm_compute. reflexivity.
    + vm_compute. reflexivity.
    + vm_compute. reflexivity.
    + vm_compute. discriminate.
Defined.

(** C5.  On a chain of at least three blocks, assigning to
    [blocks[2].previous_hash] a value other than the hash of block 1 makes
    [validate] report a broken link at index 2, not a hash mismatch. *)
Theorem tamper_previous_hash_broken_link (self : Blockchain) (v : pystr)
    (b1 : Block) :
  reachable self ->
  (3 <= length (chain self))%nat ->
  chain self !! 1%nat = Some b1 ->
  v <> hash b1 ->
  exists self',
    tamper self 2 (set_previous_hash v) = Ok self' /\
    validate self' = Ok (false, Some (broken_link_msg 2)) /\
    broken_link_msg 2 <> hash_mismatch_msg 2.
Proof.
  intros Hinv%reachable_inv Hlen Hb1 Hv.
  destruct (lookup_lt_is_Some_2 (chain self) 2) as [b2 Hb2]; [lia|].
  eexists. split; [by apply tamper_Ok|].
  split; [|apply broken_link_not_hash_mismatch].
  apply validate_broken_link; cbn [chain].
  - rewrite length_insert. lia.
  - intros j Hj.
    destruct (passes_insert_after (chain self) 2 j (set_previous_hash v b2))
      as [-> ->]; [lia|].
    apply inv_passes; [done|lia].
  - unfold link_ok. cbn [Nat.sub].
    rewrite list_lookup_insert_ne, Hb1 by done.
    rewrite list_lookup_insert_eq by lia.
    by apply bool_decide_eq_false_2.
Qed.

Lemma tamper_previous_hash_broken_link_witness :
  exists self',
    tamper demo2 2 (set_previous_hash (py "0")) = Ok self' /\
    validate self' = Ok (false, Some (broken_link_msg 2)) /\
    broken_link_msg 2 <> hash_mismatch_msg 2.
Proof.
  eapply (tamper_previous_hash_broken_link demo2 (py "0")).
  - exact demo2_reachable.
  - vm_compute. lia.
  - vm_compute. reflexivity.
  - vm_compute. discriminate.
Defined.




(** C10.  Assigning to fields of the genesis block other than its stored
    hash does not change what [validate] returns; on a chain the class
    produced it still returns [(True, None)]. *)
Theorem genesis_tamper_undetected (self self' : Blockchain)
    (f : Block -> Block) :
  (forall b, hash (f b) = hash b) ->
  tamper self 0 f = Ok self' ->
  validate self' = validate self /\
  (reachable self -> validate self' = Ok (true, None)).
Proof.
  intros Hf (g & Hg & ->)%tamper_Ok_inv.
  assert (validate
            (mkBlockchain (<[0%nat := f g]> (chain self)) (_patient_index self))
          = validate self) as Heq.
  { unfold validate. cbn [chain]. rewrite length_insert.
    apply validate_loop_ext.
    - apply Forall_forall. intros i Hi%list_elem_of_In%in_seq. lia.
    - rewrite list_lookup_insert_eq by (apply lookup_lt_Some in Hg; lia).
      rewrite Hg. cbn [fmap option_fmap option_map]. by rewrite Hf.
    - intros i Hi. apply list_lookup_insert_ne. lia. }
  split; [exact Heq|].
  intros Hreach. rewrite Heq.
  by apply validate_all_pass, inv_passes, reachable_inv.
Qed.

Lemma genesis_tamper_undetected_witness :
  exists self',
    tamper demo2 0 (fun b => set_timestamp (py "1999-01-01T00:00:00")
                               (set_record cold b)) = Ok self' /\
    validate self' = Ok (true, None).
Proof.
  eexists. split; [vm_compute; reflexivity|].
  eapply (proj2 (genesis_tamper_undetected demo2 _
            (fun b => set_timestamp (py "1999-01-01T00:00:00")
                        (set_record cold b)) _ _)).
  exact demo2_reachable.
  Unshelve.
  - reflexivity.
  - vm_compute. reflexivity.
Defined.

(** ** The patient index *)

(** C7, as amended.  In every state reached by construction and
    [add_record] calls, the entry of a patient in the index is the ordered
    list of the positions from 1 on whose block belongs to the patient, and
    a patient with no such position has no entry. *)
Theorem patient_index_positions (self : Blockchain) (p : pystr) :
  reachable self ->
  let l := positions p 1 (tail (chain self)) in
  _patient_index self !! p = index_entry l /\
  StronglySorted Z.lt l /\
  (forall z : Z,
     z ∈ l <->
     exists (i : nat) (b : Block),
       z = Z.of_nat i /\ (1 <= i)%nat /\
       chain self !! i = Some b /\ patient_id b = p).
Proof.
  intros Hinv%reachable_inv l. split; [apply (inv_patients _ Hinv)|].
  split; [apply positions_sorted|].
  intros z. unfold l. rewrite positions_elem. split.
  - intros (j & b & -> & Hb & Hp). exists (S j), b.
    rewrite lookup_tail in Hb.
    split; [done|]. split; [lia|]. by split.
  - intros ([|i] & b & -> & Hi & Hb & Hp); [lia|].
    exists i, b. rewrite lookup_tail. split; [done|]. by split.
Qed.

Lemma patient_index_positions_witness :
  _patient_index demo2 !! py "patient-2" = Some [2%Z].
Proof.
  exact (proj1 (patient_index_positions demo2 (py "patient-2")
                  demo2_reachable)).
Defined.

(** C7, as stated, fails: the genesis block sits at position 0 with patient
    id ["0"], and the index has no entry for it. *)
Lemma patient_index_skips_genesis :
  reachable demo0 /\
  positions (py "0") 0 (chain demo0) = [0%Z] /\
  _patient_index demo0 !! py "0" = None /\
  _patient_index demo0 !! py "0"
  <> index_entry (positions (py "0") 0 (chain demo0)).
Proof.
  split; [exact demo0_reachable|].
  split; [vm_compute; reflexivity|].
  split; [vm_compute; reflexivity|].
  vm_compute. discriminate.
Qed.

(** ** Errors *)



(** C9.  [get_latest_record] returns the last block of [get_all_records],
    and [None] when there is none; a patient without entries gets the empty
    list and [None], no exception; and in the states the class produces
    neither lookup raises. *)
Theorem lookup_latest (self : Blockchain) (p : pystr) :
  get_latest_record self p
  = (blocks ← get_all_records self p; Ok (last blocks)) /\
  (default [] (_patient_index self !! p) = [] ->
   get_all_records self p = Ok [] /\ get_latest_record self p = Ok None) /\
  (reachable self ->
   exists blocks,
     get_all_records self p = Ok blocks /\
     get_latest_record self p = Ok (last blocks)).
Proof.
  split; [apply get_latest_record_last|]. split.
  - intros Hnone.
    assert (get_all_records self p = Ok []) as Hall.
    { unfold get_all_records.
      destruct (_patient_index self !! p) as [[|z l]|]; done. }
    split; [done|]. by rewrite get_latest_record_last, Hall.
  - intros Hreach.
    pose proof (patient_index_entries self p Hreach) as Hentries.
    assert (exists blocks, get_all_records self p = Ok blocks) as [blocks Hall].
    { unfold get_all_records.
      destruct (_patient_index self !! p) as [[|z l]|]; [by eexists| |by eexists].
      by apply collect_map_total, Hentries. }
    exists blocks. split; [done|]. by rewrite get_latest_record_last, Hall.
Qed.

Lemma lookup_latest_witness :
  get_all_records demo2 (py "patient-3") = Ok [] /\
  get_latest_record demo2 (py "patient-3") = Ok None.
Proof.
  apply (proj1 (proj2 (lookup_latest demo2 (py "patient-3")))).
  vm_compute. reflexivity.
Defined.


(** * Further properties of the program *)

(** ** Creating and appending blocks *)





(** X3.  [add_record] is append-only in every state, whether it returns or
    raises: each block stays at its position, the chain grows by at most one
    block, and the entries of the index only grow at their end. *)
Theorem add_record_append_only (self : Blockchain) (now p : pystr)
    (r : pydict) :
  let self' := (add_record self now p r).1 in
  (forall i b, chain self !! i = Some b -> chain self' !! i = Some b) /\
  (length (chain self) <= length (chain self') <= S (length (chain self)))%nat /\
  (forall q l, _patient_index self !! q = Some l ->
     exists l', _patient_index self' !! q = Some (l ++ l')).
Proof.
  destruct (add_record_cases self now p r)
    as [[e ->]|(latest & b & _ & _ & ->)]; cbn [fst chain _patient_index].
  - split; [done|]. split; [lia|]. intros q l Hq. exists []. by rewrite app_nil_r.
  - split; [|split].
    + intros i b' Hb'. by apply lookup_app_l_Some.
    + rewrite length_app. simpl. lia.
    + intros q l Hq. unfold setdefault_append.
      destruct (decide (p = q)) as [->|Hpq].
      * exists [index b]. by rewrite lookup_insert_eq, Hq.
      * exists []. by rewrite lookup_insert_ne, app_nil_r.
Qed.

(** ** What every chain of the class looks like *)

Lemma reachable_genesis (self : Blockchain) :
  reachable self ->
  exists g rest, chain self = g :: rest /\ is_genesis g.
Proof.
  induction 1 as [now self Hinit|self now p r _ (g & rest & Hchain & Hg)].
  - destruct (init_Ok now) as (g & Hcreate & Hinit').
    rewrite Hinit' in Hinit. injection Hinit as <-.
    unfold _create_genesis_block in Hcreate.
    apply create_Ok in Hcreate as (h & _ & ->).
    by exists (mkBlock 0 now (py "0") genesis_record (py "0") h), [].
  - destruct (add_record_cases self now p r)
      as [[e ->]|(latest & b & _ & _ & ->)]; cbn [fst chain].
    + by exists g, rest.
    + exists g, (rest ++ [b]). by rewrite Hchain.
Qed.

(** X4.  Every chain of the class starts with the genesis block (index 0,
    patient id and previous hash ["0"], the fixed note as record, a hash
    that matches its fields) and every block stores its own position as
    index. *)
Theorem reachable_numbering (self : Blockchain) :
  reachable self ->
  (exists g, chain self !! 0%nat = Some g /\ is_genesis g /\
     recomputed g = Ok (hash g)) /\
  (forall (i : nat) (b : Block),
     chain self !! i = Some b -> index b = Z.of_nat i).
Proof.
  intros Hreach. pose proof (reachable_inv _ Hreach) as Hinv.
  destruct (reachable_genesis _ Hreach) as (g & rest & Hchain & Hg).
  split; [|apply (inv_index _ Hinv)].
  exists g. rewrite Hchain. split; [done|]. split; [done|].
  apply (inv_hash _ Hinv 0%nat). by rewrite Hchain.
Qed.

Lemma reachable_numbering_witness :
  (exists g, chain demo2 !! 0%nat = Some g /\ is_genesis g /\
     recomputed g = Ok (hash g)) /\
  (forall (i : nat) (b : Block),
     chain demo2 !! i = Some b -> index b = Z.of_nat i).
Proof. exact (reachable_numbering demo2 demo2_reachable). Defined.

(** ** Lookups *)

Lemma collect_positions (blocks : list Block) (p : pystr) (i : nat)
    (l : list Block) :
  (forall j, l !! j = blocks !! (i + j)%nat) ->
  collect (map (list_get blocks) (positions p i l))
  = Ok (filter (fun b => patient_id b = p) l).
Proof.
  revert i. induction l as [|a l IH]; intros i Hl; [done|].
  cbn [positions]. rewrite filter_cons.
  assert (collect (map (list_get blocks) (positions p (S i) l))
          = Ok (filter (fun b => patient_id b = p) l)) as Hrest.
  { apply IH. intros j. specialize (Hl (S j)).
    change ((a :: l) !! S j) with (l !! j) in Hl. rewrite Hl. f_equal. lia. }
  assert (blocks !! i = Some a) as Ha.
  { specialize (Hl 0%nat). rewrite Nat.add_0_r in Hl. by rewrite <- Hl. }
  destruct (decide (patient_id a = p)) as [Hp|Hp].
  - rewrite bool_decide_eq_true_2 by done. cbn [app map collect].
    rewrite list_get_nat, Ha, Hrest. done.
  - rewrite bool_decide_eq_false_2 by done. exact Hrest.
Qed.

Lemma get_all_records_reachable (self : Blockchain) (p : pystr) :
  reachable self ->
  get_all_records self p = Ok (records_of p (chain self)).
Proof.
  intros Hinv%reachable_inv. unfold get_all_records, records_of.
  rewrite (inv_patients _ Hinv).
  pose proof (collect_positions (chain self) p 1 (tail (chain self))) as Hc.
  rewrite <- Hc by (intros j; apply lookup_tail).
  by destruct (positions p 1 (tail (chain self))).
Qed.

(** X5.  On a chain of the class, [get_all_records] returns exactly the
    blocks after the genesis block whose patient id is the one asked for,
    in chain order, and [get_latest_record] the last of them, [None] when
    there is none.  The genesis block is never returned, not even for
    patient ["0"]. *)
Theorem lookup_records_of (self : Blockchain) (p : pystr) :
  reachable self ->
  get_all_records self p = Ok (records_of p (chain self)) /\
  get_latest_record self p = Ok (last (records_of p (chain self))) /\
  (forall b, b ∈ records_of p (chain self) <->
     exists i : nat, (1 <= i)%nat /\ chain self !! i = Some b /\
       patient_id b = p).
Proof.
  intros Hreach. split; [by apply get_all_records_reachable|].
  split.
  - by rewrite get_latest_record_last, get_all_records_reachable.
  - intros b. unfold records_of. rewrite list_elem_of_filter.
    rewrite list_elem_of_lookup. split.
    + intros [Hp [j Hj]]. exists (S j). rewrite lookup_tail in Hj.
      split; [lia|done].
    + intros ([|i] & Hi & Hb & Hp); [lia|].
      split; [done|]. exists i. by rewrite lookup_tail.
Qed.

Lemma lookup_records_of_witness :
  get_all_records demo2 (py "0") = Ok [] /\
  get_latest_record demo2 (py "0") = Ok None.
Proof.
  destruct (lookup_records_of demo2 (py "0") demo2_reachable) as (H1 & H2 & _).
  split; [exact H1|exact H2].
Defined.

(** X6.  After a successful [add_record] on a chain of the class, the new
    block is the latest record of its patient and the last of all the
    patient's records; the records of every other patient are as before. *)
Theorem add_record_then_lookup (self self' : Blockchain) (now p : pystr)
    (r : pydict) (b : Block) :
  reachable self ->
  add_record self now p r = (self', Ok b) ->
  get_latest_record self' p = Ok (Some b) /\
  get_all_records self' p = Ok (records_of p (chain self) ++ [b]) /\
  (forall q, q <> p ->
     get_all_records self' q = get_all_records self q /\
     get_latest_record self' q = get_latest_record self q).
Proof.
  intros Hreach Hadd.
  assert (reachable self') as Hreach'.
  { replace self' with (add_record self now p r).1 by by rewrite Hadd.
    by apply reachable_add_record. }
  destruct (add_record_cases self now p r)
    as [[e He]|(latest & b' & _ & Hc & Hadd')]; [congruence|].
  rewrite Hadd' in Hadd. injection Hadd as <- ->.
  apply create_Ok in Hc as (h & _ & Hb).
  assert (patient_id b = p) as Hp by by rewrite Hb.
  destruct (reachable_genesis _ Hreach) as (g & rest & Hchain & _).
  assert (forall q, records_of q (chain self ++ [b])
                    = records_of q (chain self)
                      ++ (if decide (patient_id b = q) then [b] else []))
    as Hrec.
  { intros q. unfold records_of. rewrite Hchain. cbn [app tail].
    rewrite filter_app. by f_equal. }
  split; [|split].
  - rewrite get_latest_record_last, get_all_records_reachable by done.
    cbn [chain mbind result_bind]. rewrite Hrec.
    destruct (decide (patient_id b = p)); [|done]. by rewrite last_snoc.
  - rewrite get_all_records_reachable by done. cbn [chain]. rewrite Hrec.
    by destruct (decide (patient_id b = p)).
  - intros q Hq.
    assert (get_all_records
              (mkBlockchain (chain self ++ [b])
                 (setdefault_append (_patient_index self) p (index b))) q
            = get_all_records self q) as Hall.
    { rewrite !get_all_records_reachable by done. cbn [chain]. rewrite Hrec.
      destruct (decide (patient_id b = q)); [congruence|].
      by rewrite app_nil_r. }
    split; [done|]. by rewrite !get_latest_record_last, Hall.
Qed.

Lemma add_record_then_lookup_witness :
  get_latest_record demo2 (py "patient-2") = Ok (Some demo_block2) /\
  get_all_records demo2 (py "patient-2")
  = Ok (records_of (py "patient-2") (chain demo1) ++ [demo_block2]) /\
  (forall q, q <> py "patient-2" ->
     get_all_records demo2 q = get_all_records demo1 q /\
     get_latest_record demo2 q = get_latest_record demo1 q).
Proof.
  apply (add_record_then_lookup demo1 demo2 demo_now (py "patient-2")
           fracture demo_block2).
  - exact demo1_reachable.
  - vm_compute. reflexivity.
Defined.

(** ** What [validate] tells *)

(** How the loop ends when it starts at position [a] with every position
    before it passed. *)
Lemma validate_loop_seq (blocks : list Block) (n a : nat) :
  (1 <= a)%nat -> (a + n <= length blocks)%nat ->
  passes_before blocks a ->
  match validate_loop blocks (seq a n) with
  | Ok (true, None) => passes_before blocks (a + n)
  | Ok (false, Some m) =>
      exists i, (a <= i < a + n)%nat /\ passes_before blocks i /\
        ((link_ok blocks i = false /\ m = broken_link_msg i) \/
         (link_ok blocks i = true /\ integrity_ok blocks i = false /\
          m = hash_mismatch_msg i))
  | Ok _ => False
  | Raise e =>
      e = TypeError /\
      exists i cur, (a <= i < a + n)%nat /\ passes_before blocks i /\
        link_ok blocks i = true /\ blocks !! i = Some cur /\
        serializable (PyDict (record cur)) = false
  end.
Proof.
  revert a. induction n as [|n IH]; intros a Ha Hlen Hpre.
  { cbn [seq validate_loop]. by rewrite Nat.add_0_r. }
  cbn [seq]. rewrite validate_loop_step by done.
  destruct (lookup_lt_is_Some_2 blocks (a - 1)%nat) as [prev Hprev]; [lia|].
  destruct (lookup_lt_is_Some_2 blocks a) as [cur Hcur]; [lia|].
  rewrite Hprev, Hcur.
  assert (link_ok blocks a
          = bool_decide (previous_hash cur = hash prev)) as Hlink.
  { unfold link_ok. by rewrite Hprev, Hcur. }
  assert (integrity_ok blocks a
          = bool_decide (recomputed cur = Ok (hash cur))) as Hint.
  { unfold integrity_ok. by rewrite Hcur. }
  destruct (decide (previous_hash cur = hash prev)) as [Hl|Hl]; cycle 1.
  { rewrite bool_decide_eq_true_2 by done. lazy beta iota.
    exists a. split; [lia|]. split; [done|]. left.
    split; [|done]. rewrite Hlink. by apply bool_decide_eq_false_2. }
  rewrite (bool_decide_eq_false_2 (previous_hash cur ≠ hash prev))
    by (by intros ?).
  destruct (recomputed cur) as [h|e] eqn:Hrec; cbn [mbind result_bind].
  - destruct (decide (hash cur = h)) as [Hh|Hh]; cycle 1.
    { rewrite bool_decide_eq_true_2 by done. lazy beta iota.
      exists a. split; [lia|]. split; [done|]. right.
      split; [rewrite Hlink; by apply bool_decide_eq_true_2|].
      split; [|done]. rewrite Hint. apply bool_decide_eq_false_2. congruence. }
    rewrite (bool_decide_eq_false_2 (hash cur ≠ h)) by (by intros ?).
    assert (passes_before blocks (S a)) as Hpre'.
    { intros j Hj. destruct (decide (j = a)) as [->|Hne]; [|apply Hpre; lia].
      rewrite Hlink, Hint.
      split; apply bool_decide_eq_true_2; congruence. }
    specialize (IH (S a) ltac:(lia) ltac:(lia) Hpre').
    replace (a + S n)%nat with (S a + n)%nat by lia.
    destruct (validate_loop blocks (seq (S a) n)) as [[[] [m|]]|e];
      try done.
    + destruct IH as (i & Hi & Hrest). exists i. split; [lia|done].
    + destruct IH as (He & i & cur' & Hi & Hrest).
      split; [done|]. exists i, cur'. split; [lia|done].
  - unfold recomputed in Hrec. apply compute_hash_Raise in Hrec as [-> Hs].
    lazy beta iota. split; [done|]. exists a, cur. split; [lia|]. split; [done|].
    split; [|done]. rewrite Hlink. by apply bool_decide_eq_true_2.
Qed.

Lemma validate_seq (self : Blockchain) :
  match validate self with
  | Ok (true, None) => passes_before (chain self) (length (chain self))
  | Ok (false, Some m) =>
      exists i, (1 <= i < length (chain self))%nat /\
        passes_before (chain self) i /\
        ((link_ok (chain self) i = false /\ m = broken_link_msg i) \/
         (link_ok (chain self) i = true /\ integrity_ok (chain self) i = false /\
          m = hash_mismatch_msg i))
  | Ok _ => False
  | Raise e =>
      e = TypeError /\
      exists i cur, (1 <= i < length (chain self))%nat /\
        passes_before (chain self) i /\
        link_ok (chain self) i = true /\ chain self !! i = Some cur /\
        serializable (PyDict (record cur)) = false
  end.
Proof.
  unfold validate.
  pose proof (validate_loop_seq (chain self) (length (chain self) - 1) 1)
    as H.
  destruct (chain self) as [|g rest] eqn:Hchain.
  { cbn [length Nat.sub seq validate_loop]. intros j Hj. lia. }
  rewrite <- Hchain in *.
  assert (1 + (length (chain self) - 1) = length (chain self))%nat as Hlen.
  { rewrite Hchain. simpl. lia. }
  rewrite Hlen in H. apply H; [lia|lia|]. intros j Hj. lia.
Qed.

(** X7.  What a result of [validate] means, in every state: [(True, None)]
    is returned only if every block from position 1 on stores the hash of
    the block before it and the hash of its own fields; [(False, reason)]
    only with the reason of the first position where one of the two fails,
    a broken link when the link fails there.  No other pair is returned. *)
Theorem validate_result (self : Blockchain) (ok : bool) (m : option pystr) :
  validate self = Ok (ok, m) ->
  (ok = true /\ m = None /\
   passes_before (chain self) (length (chain self))) \/
  (ok = false /\
   exists i, (1 <= i < length (chain self))%nat /\
     passes_before (chain self) i /\
     ((link_ok (chain self) i = false /\ m = Some (broken_link_msg i)) \/
      (link_ok (chain self) i = true /\ integrity_ok (chain self) i = false /\
       m = Some (hash_mismatch_msg i)))).
Proof.
  intros Hv. pose proof (validate_seq self) as H. rewrite Hv in H.
  destruct ok, m as [msg|]; try done.
  - by left.
  - right. split; [done|]. destruct H as (i & Hi & Hpre & [[Hl ->]|(Hl & Hg & ->)]).
    + exists i. split; [done|]. split; [done|]. by left.
    + exists i. split; [done|]. split; [done|]. by right.
Qed.

Lemma validate_result_witness :
  (false = true /\ Some (hash_mismatch_msg 1) = None /\
   passes_before (chain demo2_cold) (length (chain demo2_cold))) \/
  (false = false /\
   exists i, (1 <= i < length (chain demo2_cold))%nat /\
     passes_before (chain demo2_cold) i /\
     ((link_ok (chain demo2_cold) i = false /\
       Some (hash_mismatch_msg 1) = Some (broken_link_msg i)) \/
      (link_ok (chain demo2_cold) i = true /\
       integrity_ok (chain demo2_cold) i = false /\
       Some (hash_mismatch_msg 1) = Some (hash_mismatch_msg i)))).
Proof.
  apply (validate_result demo2_cold false (Some (hash_mismatch_msg 1))).
  vm_compute. reflexivity.
Defined.



(** ** What [validate] does not see *)

Lemma passes_before_insert (blocks : list Block) (i : nat) (b : Block) :
  passes_before blocks i -> passes_before (<[i := b]> blocks) i.
Proof.
  intros Hpre j Hj.
  destruct (passes_insert_after blocks i j b) as [-> ->]; [lia|].
  by apply Hpre.
Qed.

Lemma passes_at_insert (self : Blockchain) (i : nat) (b b' : Block) :
  chain_inv self -> (1 <= i)%nat -> chain self !! i = Some b ->
  previous_hash b' = previous_hash b -> recomputed b' = Ok (hash b') ->
  link_ok (<[i := b']> (chain self)) i = true /\
  integrity_ok (<[i := b']> (chain self)) i = true.
Proof.
  intros Hinv Hi Hb Hprev Hrec. unfold link_ok, integrity_ok.
  destruct (lookup_lt_is_Some_2 (chain self) (i - 1)%nat) as [prev Hp].
  { apply lookup_lt_Some in Hb. lia. }
  rewrite list_lookup_insert_ne, Hp by lia.
  rewrite list_lookup_insert_eq by (by apply lookup_lt_Some in Hb).
  split; apply bool_decide_eq_true_2; [|done].
  rewrite Hprev. apply (inv_link _ Hinv (i - 1)%nat); [done|].
  by replace (S (i - 1)) with i by lia.
Qed.

(** X9.  Rewriting the last block goes unnoticed when its hash is rewritten
    with it: on a chain of the class, if the fields of the last block (past
    the genesis block) are replaced, its previous hash kept and its stored
    hash set to the hash of the new fields, [validate] still returns
    [(True, None)]. *)
Theorem forged_last_block_accepted (self : Blockchain) (f : Block -> Block)
    (n : nat) (b : Block) :
  reachable self ->
  (1 <= n)%nat -> S n = length (chain self) ->
  chain self !! n = Some b ->
  previous_hash (f b) = previous_hash b ->
  recomputed (f b) = Ok (hash (f b)) ->
  exists self', tamper self n f = Ok self' /\
    validate self' = Ok (true, None).
Proof.
  intros Hinv%reachable_inv Hn Hlen Hb Hprev Hrec.
  eexists. split; [by apply tamper_Ok|].
  apply validate_all_pass. cbn [chain]. rewrite length_insert.
  intros j Hj. destruct (decide (j = n)) as [->|Hne].
  - by apply (passes_at_insert self n b).
  - apply passes_before_insert; [|lia].
    intros k Hk. apply inv_passes; [done|lia].
Qed.

Lemma forged_last_block_accepted_witness :
  exists self', tamper demo2 2 (forge cold) = Ok self' /\
    validate self' = Ok (true, None).
Proof.
  eapply (forged_last_block_accepted demo2 (forge cold) 2).
  - exact demo2_reachable.
  - lia.
  - vm_compute. reflexivity.
  - vm_compute. reflexivity.
  - vm_compute. reflexivity.
  - vm_compute. reflexivity.
Defined.



(** X11.  Dropping blocks from the end goes unnoticed: [validate] returns
    [(True, None)] on every prefix of a chain of the class, the empty one
    included. *)
Theorem truncated_chain_accepted (self : Blockchain) (n : nat) :
  reachable self ->
  validate (mkBlockchain (take n (chain self)) (_patient_index self))
  = Ok (true, None).
Proof.
  intros Hinv%reachable_inv. apply validate_all_pass. cbn [chain].
  intros j Hj. rewrite length_take in Hj.
  unfold link_ok, integrity_ok. rewrite !lookup_take_lt by lia.
  apply (inv_passes _ Hinv). lia.
Qed.

Lemma truncated_chain_accepted_witness :
  validate (mkBlockchain (take 2 (chain demo2)) (_patient_index demo2))
  = Ok (true, None).
Proof. exact (truncated_chain_accepted demo2 2 demo2_reachable). Defined.

(** ** Characters outside the basic plane *)

Lemma lor_surrogate (x : N) :
  x < 1024 -> N.lor 55296 x = 55296 + x /\ N.lor 56320 x = 56320 + x.
Proof.
  intros Hx.
  assert (forallb (fun i => (N.lor 55296 (N.of_nat i) =? 55296 + N.of_nat i)
                            && (N.lor 56320 (N.of_nat i) =? 56320 + N.of_nat i))
            (seq 0 1024) = true) as Hall by (vm_compute; reflexivity).
  rewrite forallb_forall in Hall.
  specialize (Hall (N.to_nat x)). rewrite N2Nat.id in Hall.
  destruct (andb_prop _ _ (Hall ltac:(apply in_seq; lia))) as [H1 H2].
  by apply N.eqb_eq in H1, H2.
Qed.

Lemma land_1023 (y : N) : N.land y 1023 < 1024.
Proof.
  change 1023 with (N.ones 10). rewrite N.land_ones.
  change (2 ^ 10) with 1024. by apply N.mod_lt.
Qed.

Lemma escape_char_surrogate_range (u : N) :
  55296 <= u < 57344 -> Json.escape_char u = Json.u_escape u.
Proof.
  intros Hu. unfold Json.escape_char.
  repeat match goal with
         | |- context [?a =? ?b] => destruct (N.eqb_spec a b); [exfalso; lia|]
         end.
  destruct (N.leb_spec 32 u), (N.leb_spec u 126), (N.ltb_spec u 65536);
    simpl; try (exfalso; lia); done.
Qed.

Lemma escape_char_astral (c : N) :
  65536 <= c ->
  Json.escape_char c
  = Json.escape_char (high_surrogate c) ++ Json.escape_char (low_surrogate c).
Proof.
  intros Hc. unfold high_surrogate, low_surrogate.
  pose proof (land_1023 (N.shiftr (c - 65536) 10)) as Hh.
  pose proof (land_1023 (c - 65536)) as Hl.
  destruct (lor_surrogate _ Hh) as [Eh _], (lor_surrogate _ Hl) as [_ El].
  rewrite (escape_char_surrogate_range
             (N.lor 55296 (N.land (N.shiftr (c - 65536) 10) 1023))) by lia.
  rewrite (escape_char_surrogate_range
             (N.lor 56320 (N.land (c - 65536) 1023))) by lia.
  unfold Json.escape_char.
  repeat match goal with
         | |- context [?a =? ?b] => destruct (N.eqb_spec a b); [exfalso; lia|]
         end.
  destruct (N.leb_spec 32 c), (N.leb_spec c 126), (N.ltb_spec c 65536);
    simpl; try (exfalso; lia); done.
Qed.

Lemma encode_split_astral (s : pystr) :
  Json.encode_basestring_ascii (split_astral s)
  = Json.encode_basestring_ascii s.
Proof.
  unfold Json.encode_basestring_ascii. do 2 f_equal.
  induction s as [|c s IH]; [done|]. cbn [split_astral].
  destruct (N.leb_spec 65536 c) as [Hc|Hc]; cbn [map concat].
  - by rewrite IH, (escape_char_astral c Hc), <- app_assoc.
  - by rewrite IH.
Qed.

Lemma dumps_split_astral (v : pyvalue) :
  Json.dumps (split_astral_value v) = Json.dumps v.
Proof.
  induction v as [| [] |z|s0|l IH|d IH|] using pyvalue_nested_ind;
    try done.
  - cbn [split_astral_value Json.dumps]. by rewrite encode_split_astral.
  - cbn [split_astral_value Json.dumps]. f_equal. rewrite map_map.
    induction IH as [|v l Hv _ IHl]; [done|]. cbn [map]. by rewrite Hv, IHl.
  - cbn [split_astral_value Json.dumps]. do 2 f_equal. rewrite map_map.
    induction IH as [|[k v] d Hv _ IHd]; [done|]. cbn [map].
    rewrite <- IHd. unfold Json.on_snd at 1 2 4. simpl in *. by rewrite Hv.
Qed.

Lemma split_astral_longer (s : pystr) :
  Exists (fun c => 65536 <= c) s ->
  (length s < length (split_astral s))%nat.
Proof.
  assert (forall s, (length s <= length (split_astral s))%nat) as Hle.
  { clear s. induction s as [|c s IH]; [done|]. cbn [split_astral].
    destruct (65536 <=? c); simpl; lia. }
  induction 1 as [c s Hc|c s _ IH]; cbn [split_astral].
  - destruct (N.leb_spec 65536 c); [|lia]. specialize (Hle s). simpl. lia.
  - destruct (65536 <=? c); simpl; lia.
Qed.

Lemma dumps_payload_congr (i : Z) (t t' p p' : pystr) (r r' : pydict)
    (ph ph' : pystr) :
  Json.encode_basestring_ascii t' = Json.encode_basestring_ascii t ->
  Json.encode_basestring_ascii p' = Json.encode_basestring_ascii p ->
  Json.dumps (PyDict r') = Json.dumps (PyDict r) ->
  Json.encode_basestring_ascii ph' = Json.encode_basestring_ascii ph ->
  Json.dumps (Spec.payload i t' p' r' ph')
  = Json.dumps (Spec.payload i t p r ph).
Proof.
  intros Ht Hp Hr Hph.
  assert (forall t p r ph,
            Json.dumps (Spec.payload i t p r ph)
            = Json.encode_members (Json.sort_items
                [ (py "index", Json.dumps (PyInt i));
                  (py "timestamp", Ok (Json.encode_basestring_ascii t));
                  (py "patient_id", Ok (Json.encode_basestring_ascii p));
                  (py "record", Json.dumps (PyDict r));
                  (py "previous_hash", Ok (Json.encode_basestring_ascii ph)) ]))
    as E by reflexivity.
  by rewrite !E, Ht, Hp, Hr, Hph.
Qed.

(** X12.  The hash does not tell a character outside the basic plane from
    its two surrogates: replacing such characters by their surrogate pairs
    in the timestamp, the patient id, the previous hash and the string
    values of the record gives other strings (longer ones) with the same
    [compute_hash]. *)
Theorem compute_hash_surrogate_pairs (i : Z) (t p : pystr) (r : pydict)
    (ph : pystr) :
  compute_hash i (split_astral t) (split_astral p)
    (map (Json.on_snd split_astral_value) r) (split_astral ph)
  = compute_hash i t p r ph /\
  (Exists (fun c => 65536 <= c) p -> split_astral p <> p).
Proof.
  split.
  - rewrite !compute_hash_dumps.
    change (Spec.payload i (split_astral t) (split_astral p)
              (map (Json.on_snd split_astral_value) r) (split_astral ph))
      with (split_astral_value (Spec.payload i t p r ph)).
    by rewrite dumps_split_astral.
  - intros Hex%split_astral_longer Heq. rewrite Heq in Hex. lia.
Qed.

Lemma compute_hash_surrogate_pairs_witness :
  split_astral (py "patient-" ++ [128512]) <> py "patient-" ++ [128512].
Proof.
  apply (proj2 (compute_hash_surrogate_pairs 1 demo_now
                  (py "patient-" ++ [128512]) flu (py "0"))).
  apply Exists_app. right. constructor. lia.
Defined.

Lemma passes_same_hash (self : Blockchain) (i : nat) (b b' : Block) :
  chain_inv self -> (1 <= i)%nat -> chain self !! i = Some b ->
  previous_hash b' = previous_hash b -> hash b' = hash b ->
  recomputed b' = Ok (hash b') ->
  passes_before (<[i := b']> (chain self)) (length (chain self)).
Proof.
  intros Hinv Hi Hb Hprev Hhash Hrec j Hj.
  destruct (decide (j = i)) as [->|Hji].
  { by apply (passes_at_insert self i b). }
  destruct (inv_passes _ Hinv j Hj) as [Hl Hg].
  unfold link_ok, integrity_ok in *.
  rewrite (list_lookup_insert_ne _ i j) by done.
  destruct (decide (j - 1 = i)%nat) as [Hpred|Hpred].
  - rewrite Hpred in *. rewrite Hb in Hl.
    rewrite list_lookup_insert_eq by (by apply lookup_lt_Some in Hb).
    destruct (chain self !! j) as [cur|]; [|done].
    split; [|done]. by rewrite Hhash.
  - by rewrite list_lookup_insert_ne by done.
Qed.

(** X13.  So a stored block can be changed without [validate] noticing, at
    any position and with the stored hashes untouched: on a chain of the
    class, writing the surrogate pairs for the characters outside the basic
    plane into a block leaves the result [(True, None)]. *)
Theorem surrogate_pairs_undetected (self : Blockchain) (i : nat) (b : Block) :
  reachable self ->
  (1 <= i)%nat ->
  chain self !! i = Some b ->
  exists self', tamper self i split_astral_block = Ok self' /\
    validate self' = Ok (true, None) /\
    (Exists (fun c => 65536 <= c) (patient_id b) ->
     chain self' !! i <> chain self !! i).
Proof.
  intros Hinv%reachable_inv Hi Hb.
  eexists. split; [by apply tamper_Ok|]. split.
  - apply validate_all_pass. cbn [chain]. rewrite length_insert.
    apply (passes_same_hash self i b); try done.
    unfold recomputed, split_astral_block.
    cbn [index timestamp patient_id record previous_hash hash].
    pose proof (inv_hash _ Hinv i b Hb) as Hrec. unfold recomputed in Hrec.
    rewrite <- Hrec, !compute_hash_dumps.
    rewrite (dumps_payload_congr (index b) (timestamp b) _ (patient_id b) _
               (record b) _ (previous_hash b) (previous_hash b)); try done.
    + apply encode_split_astral.
    + apply encode_split_astral.
    + apply (dumps_split_astral (PyDict (record b))).
  - intros Hex%split_astral_longer. cbn [chain].
    rewrite list_lookup_insert_eq by (by apply lookup_lt_Some in Hb).
    rewrite Hb. intros [= Heq].
    apply (f_equal patient_id) in Heq. cbn [split_astral_block patient_id] in Heq.
    rewrite Heq in Hex. lia.
Qed.

Lemma demo_astral_reachable : reachable demo_astral.
Proof. apply reachable_add_record, demo0_reachable. Qed.

Lemma surrogate_pairs_undetected_witness :
  exists self', tamper demo_astral 1 split_astral_block = Ok self' /\
    validate self' = Ok (true, None) /\
    (Exists (fun c => 65536 <= c) (patient_id demo_astral_block) ->
     chain self' !! 1%nat <> chain demo_astral !! 1%nat).
Proof.
  apply (surrogate_pairs_undetected demo_astral 1 demo_astral_block).
  - exact demo_astral_reachable.
  - lia.
  - vm_compute. reflexivity.
Defined.

(** ** Printing *)

Section Display.

Lemma display_members_Ok (ms : list (pystr * pystr)) :
  JsonDisplay.encode_members (map (Json.on_snd Ok) ms)
  = Ok ([123] ++ JsonDisplay.join_comma_space (map JsonDisplay.member ms)
        ++ [125]).
Proof.
  unfold JsonDisplay.encode_members.
  replace (map Json.lift_snd (map (Json.on_snd Ok) ms)) with (map Ok ms).
  { by rewrite collect_map_Ok. }
  induction ms as [|[k e] ms IH]; simpl; [done|]. by rewrite <- IH.
Qed.

Lemma display_dumps_serializable (v : pyvalue) :
  serializable v = true -> exists s, JsonDisplay.dumps v = Ok s.
Proof.
  induction v as [| [] |z|s0|l IH|d IH|] using pyvalue_nested_ind;
    simpl; intros Hs; try done; try by eexists.
  - assert (exists es, map JsonDisplay.dumps l = map Ok es) as [es ->].
    { induction IH as [|v l Hv _ IHl]; [by exists []|].
      simpl in Hs. apply andb_prop in Hs as [Hs1 Hs2].
      destruct (Hv Hs1) as [e Hd], (IHl Hs2) as [es Hes].
      exists (e :: es). simpl. by rewrite Hd, Hes. }
    unfold JsonDisplay.encode_elements. rewrite collect_map_Ok. by eexists.
  - assert (exists ms, map (Json.on_snd JsonDisplay.dumps) d
                       = map (Json.on_snd Ok) ms) as [ms ->].
    { induction IH as [|[k v] d Hv _ IHd]; [by exists []|].
      simpl in Hs. apply andb_prop in Hs as [Hs1 Hs2].
      destruct (Hv Hs1) as [e Hd], (IHd Hs2) as [ms Hms].
      exists ((k, e) :: ms). simpl. rewrite <- Hms.
      unfold Json.on_snd at 1 3. simpl in *. by rewrite Hd. }
    rewrite display_members_Ok. by eexists.
Qed.


Lemma print_block_serializable (b : Block) :
  serializable (PyDict (record b)) = true ->
  exists out, _print_block b = (out, Ok tt) /\ length out = 7%nat.
Proof.
  intros [text Hd]%display_dumps_serializable.
  unfold _print_block. rewrite Hd. by eexists.
Qed.


Lemma for_each_print_block (blocks : list Block) :
  Forall (fun b => serializable (PyDict (record b)) = true) blocks ->
  exists out, for_each blocks _print_block = (out, Ok tt) /\
    length out = (7 * length blocks)%nat.
Proof.
  induction 1 as [|b blocks Hb _ (out' & IH & Hlen)]; [by exists []|].
  destruct (print_block_serializable b Hb) as (out & Hout & Hlen').
  exists (out ++ out'). cbn [for_each mbind io_bind]. rewrite Hout, IH.
  split; [done|]. rewrite length_app. simpl. lia.
Qed.

End Display.



(** ** The menu *)

Section Menu.

Lemma io_returns_bind {A B} (m : io A) (k : A -> io B) (a : A) (b : B) :
  io_returns m a -> io_returns (k a) b -> io_returns (m ≫= k) b.
Proof.
  intros [out ->] [out' Hk]. exists (out ++ out').
  cbn [mbind io_bind]. by rewrite Hk.
Qed.

Lemma io_returns_print (line : pystr) : io_returns (print line) tt.
Proof. by exists [line]. Qed.

Lemma io_returns_print2 (a b : pystr) : io_returns (print2 a b) tt.
Proof. apply io_returns_print. Qed.

Lemma io_returns_ret {A} (a : A) : io_returns (mret a) a.
Proof. by exists []. Qed.

Lemma io_returns_lift {A} (r : result A) (a : A) :
  r = Ok a -> io_returns (lift r) a.
Proof. intros ->. by exists []. Qed.

Lemma io_returns_banner : io_returns menu_banner tt.
Proof. by eexists. Qed.

Lemma string_record_serializable (r : pydict) :
  string_record r -> serializable (PyDict r) = true.
Proof.
  intros Hr. simpl. apply forallb_forall. intros kv Hin.
  unfold string_record in Hr. rewrite Forall_forall in Hr.
  destruct (Hr kv) as [s Hs]; [by apply list_elem_of_In|]. by rewrite Hs.
Qed.

Lemma string_record_dict_set (r : pydict) (k v : pystr) :
  string_record r -> string_record (dict_set r k (PyStr v)).
Proof.
  induction 1 as [|[k' v'] r Hv Hr IH]; cbn [dict_set].
  { constructor; [by eexists|constructor]. }
  case_bool_decide; constructor; try done. by eexists.
Qed.

Lemma menu_record_string (d t n : pystr) : string_record (menu_record d t n).
Proof.
  unfold menu_record.
  assert (string_record [(py "diagnosis", PyStr d); (py "treatment", PyStr t)])
    as Hbase by (repeat constructor; by eexists).
  destruct n; [done|]. by apply string_record_dict_set.
Qed.

Lemma dict_get_set (r : pydict) (k : pystr) (v : pyvalue) :
  dict_get (dict_set r k v) k = Some v.
Proof.
  induction r as [|[k' v'] r IH]; cbn [dict_set dict_get].
  { by rewrite bool_decide_eq_true_2. }
  case_bool_decide as Hk; cbn [dict_get].
  - by rewrite bool_decide_eq_true_2.
  - by rewrite bool_decide_eq_false_2.
Qed.

Lemma dict_get_set_ne (r : pydict) (k k' : pystr) (v : pyvalue) :
  k' <> k -> dict_get (dict_set r k v) k' = dict_get r k'.
Proof.
  intros Hne. induction r as [|[k0 v0] r IH]; cbn [dict_set dict_get].
  { by rewrite bool_decide_eq_false_2. }
  case_bool_decide as Hk; cbn [dict_get].
  - subst k0. by rewrite !bool_decide_eq_false_2.
  - by rewrite IH.
Qed.

Lemma dict_set_same (r : pydict) (k : pystr) (v : pyvalue) :
  dict_get r k = Some v -> dict_set r k v = r.
Proof.
  induction r as [|[k' v'] r IH]; cbn [dict_set dict_get]; [done|].
  case_bool_decide as Hk.
  - intros [= ->]. by subst k'.
  - intros Hr. by rewrite IH.
Qed.

Lemma reachable_menu_ok_init (now : pystr) (bc : Blockchain) :
  init now = Ok bc -> menu_ok bc.
Proof.
  intros Hinit.
  pose proof (reachable_init _ _ Hinit) as Hreach.
  pose proof (reachable_inv _ Hreach) as [Hne Hidx _ Hlink Hpat].
  split; try done.
  destruct (reachable_genesis _ Hreach) as (g & rest & Hchain & Hg).
  destruct (init_Ok now) as (g' & _ & Hinit').
  rewrite Hinit' in Hinit. injection Hinit as <-.
  cbn [chain] in *. injection Hchain as <- <-.
  constructor; [|constructor].
  destruct Hg as (_ & _ & -> & _). repeat constructor. by eexists.
Qed.

Lemma positions_patient_ids (p : pystr) (i : nat) (l l' : list Block) :
  map patient_id l = map patient_id l' ->
  positions p i l = positions p i l'.
Proof.
  revert i l'. induction l as [|a l IH]; intros i [|a' l'] Hmap; try done.
  cbn [map] in Hmap. injection Hmap as Ha Hl.
  cbn [positions]. by rewrite Ha, (IH (S i) l' Hl).
Qed.

Lemma menu_ok_add_record (bc : Blockchain) (now pid d t n : pystr) :
  menu_ok bc ->
  exists bc' b,
    add_record bc now pid (menu_record d t n) = (bc', Ok b) /\
    index b = Z.of_nat (length (chain bc)) /\
    record b = menu_record d t n /\ patient_id b = pid /\
    chain bc' = chain bc ++ [b] /\ timestamp b = now /\
    menu_ok bc'.
Proof.
  intros [Hne Hidx Hlink Hpat Hrec].
  pose proof (string_record_serializable _ (menu_record_string d t n)) as Hs.
  destruct (add_record_cases bc now pid (menu_record d t n))
    as [[e He]|(latest & b & Hlast & Hc & Hadd)].
  { exfalso. unfold add_record in He. rewrite list_get_last in He.
    destruct (last (chain bc)) as [latest|] eqn:Hlast.
    - destruct (create_serializable now (Z.of_nat (length (chain bc))) pid
                  (menu_record d t n) (hash latest) Hs) as [b Hb].
      rewrite Hb in He. by inversion He.
    - by apply last_None in Hlast. }
  apply create_Ok in Hc as (h & Hh & ->).
  eexists _, _. split; [exact Hadd|]. do 5 (split; [done|]).
  rewrite last_lookup in Hlast.
  split; cbn [chain _patient_index].
  - by destruct (chain bc).
  - intros i b Hb. apply lookup_app_Some in Hb as [Hb|[Hlen Hb]].
    { by eapply Hidx. }
    apply list_lookup_singleton_Some in Hb as [Hi <-]. simpl. lia.
  - intros i prev cur Hprev Hcur.
    apply lookup_app_Some in Hcur as [Hcur|[Hlen Hcur]].
    { rewrite lookup_app_l in Hprev
        by (apply lookup_lt_Some in Hcur; lia).
      by eapply Hlink. }
    apply list_lookup_singleton_Some in Hcur as [Hi <-]. simpl.
    assert (i = pred (length (chain bc))) as -> by lia.
    rewrite lookup_app_l in Hprev by (destruct (chain bc); simpl; [done|lia]).
    congruence.
  - intros q. unfold setdefault_append. rewrite Hpat, default_index_entry.
    destruct (chain bc) as [|g rest] eqn:Hchain; [done|].
    cbn [tail app]. rewrite positions_app. simpl.
    destruct (decide (pid = q)) as [->|Hpq].
    + rewrite lookup_insert_eq. rewrite bool_decide_eq_true_2 by done.
      rewrite index_entry_snoc. do 3 f_equal; lia.
    + rewrite lookup_insert_ne by done.
      rewrite bool_decide_eq_false_2 by done. rewrite app_nil_r.
      apply Hpat.
  - apply Forall_app. split; [done|]. constructor; [|constructor].
    apply menu_record_string.
Qed.

Lemma lookup_insert_set_record (l : list Block) (n i : nat) (b x : Block)
    (r : pydict) :
  l !! n = Some b ->
  <[n := set_record r b]> l !! i = Some x ->
  exists y, l !! i = Some y /\ index x = index y /\
    timestamp x = timestamp y /\ patient_id x = patient_id y /\
    previous_hash x = previous_hash y /\ hash x = hash y /\
    (record x = record y \/ (i = n /\ record x = r)).
Proof.
  intros Hb Hx. destruct (decide (i = n)) as [->|Hne].
  - rewrite list_lookup_insert_eq in Hx by (by apply lookup_lt_Some in Hb).
    injection Hx as <-. exists b. repeat (split; [done|]). by right.
  - rewrite list_lookup_insert_ne in Hx by done.
    exists x. repeat (split; [done|]). by left.
Qed.

Lemma menu_ok_tamper_field (bc : Blockchain) (idx : Z) (field value : pystr) :
  menu_ok bc ->
  (0 < idx < Z.of_nat (length (chain bc)))%Z ->
  exists b,
    chain bc !! Z.to_nat idx = Some b /\
    tamper_field bc idx field value
    = Ok (mkBlockchain
            (<[Z.to_nat idx :=
                 set_record (dict_set (record b) field (PyStr value)) b]>
               (chain bc))
            (_patient_index bc)) /\
    menu_ok (mkBlockchain
               (<[Z.to_nat idx :=
                    set_record (dict_set (record b) field (PyStr value)) b]>
                  (chain bc))
               (_patient_index bc)).
Proof.
  intros [Hne Hidx Hlink Hpat Hrec] Hrange.
  destruct (lookup_lt_is_Some_2 (chain bc) (Z.to_nat idx)) as [b Hb]; [lia|].
  exists b. split; [done|]. split.
  { unfold tamper_field.
    replace idx with (Z.of_nat (Z.to_nat idx)) at 1 by lia.
    by rewrite list_get_nat, Hb. }
  set (r' := dict_set (record b) field (PyStr value)).
  split; cbn [chain _patient_index].
  - intros Hnil. apply (f_equal length) in Hnil.
    rewrite length_insert in Hnil. by destruct (chain bc).
  - intros i x Hx.
    destruct (lookup_insert_set_record _ _ _ _ _ _ Hb Hx)
      as (y & Hy & -> & _). by eapply Hidx.
  - intros i prev cur Hprev Hcur.
    destruct (lookup_insert_set_record _ _ _ _ _ _ Hb Hprev)
      as (y & Hy & _ & _ & _ & _ & -> & _).
    destruct (lookup_insert_set_record _ _ _ _ _ _ Hb Hcur)
      as (z & Hz & _ & _ & _ & -> & _).
    by eapply Hlink.
  - intros p. rewrite Hpat. f_equal. apply positions_patient_ids.
    destruct (chain bc) as [|g rest]; [done|].
    destruct (Z.to_nat idx) as [|n]; [done|]. cbn [tail].
    change (<[S n := set_record r' b]> (g :: rest))
      with (g :: <[n := set_record r' b]> rest).
    cbn [tail]. change ((g :: rest) !! S n) with (rest !! n) in Hb.
    clear -Hb. revert n Hb.
    induction rest as [|a rest IH]; intros [|n] Hb; try done.
    + cbn in Hb. injection Hb as ->. done.
    + cbn [map]. change (<[S n := set_record r' b]> (a :: rest))
        with (a :: <[n := set_record r' b]> rest).
      cbn [map]. f_equal. by apply IH.
  - apply Forall_insert; [done|]. cbn [set_record record].
    apply string_record_dict_set.
    rewrite Forall_forall in Hrec. apply Hrec.
    by apply list_elem_of_lookup_2 in Hb.
Qed.

End Menu.

Section MenuRun.

Lemma menu_ok_link (bc : Blockchain) (j : nat) :
  menu_ok bc -> (1 <= j < length (chain bc))%nat ->
  link_ok (chain bc) j = true.
Proof.
  intros Hok Hj. unfold link_ok.
  destruct (lookup_lt_is_Some_2 (chain bc) (j - 1)%nat) as [prev Hprev]; [lia|].
  destruct (lookup_lt_is_Some_2 (chain bc) j) as [cur Hcur]; [lia|].
  rewrite Hprev, Hcur. apply bool_decide_eq_true_2.
  apply (mo_link _ Hok (j - 1)%nat); [done|].
  by replace (S (j - 1)) with j by lia.
Qed.

Lemma menu_ok_serializable (bc : Blockchain) (i : nat) (b : Block) :
  menu_ok bc -> chain bc !! i = Some b ->
  serializable (PyDict (record b)) = true.
Proof.
  intros Hok Hb. apply string_record_serializable.
  pose proof (mo_records _ Hok) as Hrec. rewrite Forall_forall in Hrec.
  apply Hrec. by apply list_elem_of_lookup_2 in Hb.
Qed.

Lemma menu_ok_validate (bc : Blockchain) :
  menu_ok bc ->
  validate bc = Ok (true, None) \/
  exists i, (1 <= i < length (chain bc))%nat /\
    validate bc = Ok (false, Some (hash_mismatch_msg i)).
Proof.
  intros Hok. pose proof (validate_seq bc) as H.
  destruct (validate bc) as [[[] [m|]]|e]; try done; [by left| |].
  - destruct H as (i & Hi & _ & [[Hl _]|(_ & _ & ->)]).
    + by rewrite (menu_ok_link bc i Hok Hi) in Hl.
    + right. by exists i.
  - destruct H as (_ & i & cur & _ & _ & _ & Hcur & Hs).
    by rewrite (menu_ok_serializable bc i cur Hok Hcur) in Hs.
Qed.

Lemma menu_ok_get_all_records (bc : Blockchain) (p : pystr) :
  menu_ok bc -> get_all_records bc p = Ok (records_of p (chain bc)).
Proof.
  intros Hok. unfold get_all_records, records_of.
  rewrite (mo_patients _ Hok).
  pose proof (collect_positions (chain bc) p 1 (tail (chain bc))) as Hc.
  rewrite <- Hc by (intros j; apply lookup_tail).
  by destruct (positions p 1 (tail (chain bc))).
Qed.

Lemma menu_ok_print_blocks (bc : Blockchain) (blocks : list Block) :
  menu_ok bc -> blocks ⊆ chain bc ->
  io_returns (for_each blocks _print_block) tt.
Proof.
  intros Hok Hsub.
  destruct (for_each_print_block blocks) as (out & Hout & _); [|by exists out].
  apply Forall_forall. intros b Hb.
  apply Hsub, list_elem_of_lookup in Hb as [i Hi].
  by apply (menu_ok_serializable bc i).
Qed.

Lemma records_of_subseteq (p : pystr) (blocks : list Block) :
  records_of p blocks ⊆ blocks.
Proof.
  intros b [_ Hb]%list_elem_of_filter. destruct blocks; [done|].
  by right.
Qed.

Lemma menu_ok_warn (bc : Blockchain) :
  menu_ok bc -> io_returns (warn_if_invalid bc) tt.
Proof.
  intros Hok. unfold warn_if_invalid.
  destruct (menu_ok_validate bc Hok) as [->|(i & _ & ->)]; by eexists.
Qed.

(** One pass of the loop on a chain the menu has produced. *)
Lemma menu_step_ok (bc : Blockchain) (c : choice) :
  menu_ok bc ->
  exists bc' again, io_returns (menu_step bc c) (bc', again) /\ menu_ok bc'.
Proof.
  intros Hok. unfold menu_step.
  destruct c as [now pid d t n|pid|pid| | |[idx|] field value| |].
  - destruct (menu_ok_add_record bc now pid d t n Hok)
      as (bc' & b & Hadd & _ & _ & _ & _ & _ & Hok').
    exists bc', true. split; [|done]. rewrite Hadd.
    eapply io_returns_bind; [apply io_returns_banner|].
    eapply io_returns_bind; [by apply io_returns_lift|].
    eapply io_returns_bind; [apply io_returns_print2|].
    apply io_returns_ret.
  - exists bc, true. split; [|done].
    eapply io_returns_bind; [apply io_returns_banner|].
    eapply io_returns_bind; [by apply menu_ok_warn|].
    eapply io_returns_bind;
      [by apply io_returns_lift, menu_ok_get_all_records|].
    eapply io_returns_bind; [|apply io_returns_ret].
    pose proof (records_of_subseteq pid (chain bc)) as Hsub.
    destruct (records_of pid (chain bc)) as [|b bs];
      [apply io_returns_print2|].
    eapply io_returns_bind; [apply io_returns_print|].
    by apply (menu_ok_print_blocks bc).
  - exists bc, true. split; [|done].
    eapply io_returns_bind; [apply io_returns_banner|].
    eapply io_returns_bind; [by apply menu_ok_warn|].
    eapply io_returns_bind.
    { apply io_returns_lift. rewrite get_latest_record_last.
      by rewrite menu_ok_get_all_records. }
    eapply io_returns_bind; [|apply io_returns_ret].
    destruct (last (records_of pid (chain bc))) as [b|] eqn:Hlast;
      [|apply io_returns_print2].
    eapply io_returns_bind; [apply io_returns_print|].
    assert (io_returns (for_each [b] _print_block) tt) as [out Hout].
    { apply (menu_ok_print_blocks bc); [done|].
      intros b' ->%list_elem_of_singleton.
      apply (records_of_subseteq pid). by apply last_Some_elem_of. }
    cbn [for_each mbind io_bind] in Hout.
    destruct (_print_block b) as [out' [[]|e]]; [|by inversion Hout].
    by exists out'.
  - exists bc, true. split; [|done].
    eapply io_returns_bind; [apply io_returns_banner|].
    eapply io_returns_bind; [|apply io_returns_ret].
    by apply (menu_ok_print_blocks bc).
  - exists bc, true. split; [|done].
    eapply io_returns_bind; [apply io_returns_banner|].
    destruct (menu_ok_validate bc Hok) as [Hv|(i & _ & Hv)].
    + eapply io_returns_bind; [by apply io_returns_lift|].
      eapply io_returns_bind; [apply io_returns_print2|].
      eapply io_returns_bind; [apply io_returns_ret|apply io_returns_ret].
    + eapply io_returns_bind; [by apply io_returns_lift|].
      eapply io_returns_bind; [apply io_returns_print2|].
      eapply io_returns_bind; [|apply io_returns_ret].
      destruct (hash_mismatch_msg i);
        [apply io_returns_ret|apply io_returns_print2].
  - destruct ((idx <=? 0)%Z || (Z.of_nat (length (chain bc)) <=? idx)%Z)
      eqn:Hrange.
    { exists bc, true. split; [|done].
      eapply io_returns_bind; [apply io_returns_banner|].
      eapply io_returns_bind; [apply io_returns_print|apply io_returns_ret]. }
    destruct (negb (bool_decide (field ∈ [py "diagnosis"; py "treatment";
                                           py "notes"]))).
    { exists bc, true. split; [|done].
      eapply io_returns_bind; [apply io_returns_banner|].
      eapply io_returns_bind; [apply io_returns_print|apply io_returns_ret]. }
    apply orb_false_elim in Hrange as [H1%Z.leb_gt H2%Z.leb_gt].
    destruct (menu_ok_tamper_field bc idx field value Hok ltac:(lia))
      as (b & _ & Htamper & Hok').
    eexists _, true. split; [|exact Hok'].
    eapply io_returns_bind; [apply io_returns_banner|].
    eapply io_returns_bind; [by apply io_returns_lift|].
    eapply io_returns_bind; [apply io_returns_print|apply io_returns_ret].
  - exists bc, true. split; [|done].
    eapply io_returns_bind; [apply io_returns_banner|].
    eapply io_returns_bind; [apply io_returns_print|apply io_returns_ret].
  - exists bc, false. split; [|done].
    eapply io_returns_bind; [apply io_returns_banner|].
    eapply io_returns_bind; [apply io_returns_print|apply io_returns_ret].
  - exists bc, true. split; [|done].
    eapply io_returns_bind; [apply io_returns_banner|].
    eapply io_returns_bind; [apply io_returns_print|apply io_returns_ret].
Qed.

Lemma menu_loop_ok (choices : list choice) (bc : Blockchain) :
  menu_ok bc ->
  exists bc', io_returns (menu_loop bc choices) bc' /\ menu_ok bc'.
Proof.
  revert bc. induction choices as [|c choices IH]; intros bc Hok.
  { exists bc. split; [apply io_returns_ret|done]. }
  destruct (menu_step_ok bc c Hok) as (bc1 & again & Hstep & Hok1).
  cbn [menu_loop]. destruct again.
  - destruct (IH bc1 Hok1) as (bc' & Hloop & Hok').
    exists bc'. split; [|done]. by eapply io_returns_bind.
  - exists bc1. split; [|done].
    eapply io_returns_bind; [done|apply io_returns_ret].
Qed.

Lemma menu_ok_run (now : pystr) (choices : list choice) :
  exists bc, io_returns (menu now choices) bc /\ menu_ok bc.
Proof.
  destruct (init_Ok now) as (g & _ & Hinit).
  destruct (menu_loop_ok choices (mkBlockchain [g] ∅)) as (bc & Hloop & Hok).
  { by apply (reachable_menu_ok_init now). }
  exists bc. split; [|done]. unfold menu.
  eapply io_returns_bind; [by apply io_returns_lift|done].
Qed.

End MenuRun.

(** X15.  The menu never ends with an exception of the chain code: whatever
    the user chooses and types, every pass of the loop returns. *)
Theorem menu_never_raises (now : pystr) (choices : list choice) :
  exists (out : list pystr) (bc : Blockchain),
    menu now choices = (out, Ok bc).
Proof.
  destruct (menu_ok_run now choices) as (bc & [out Hrun] & _).
  by exists out, bc.
Qed.

(** X16.  The chain a menu session leaves behind: [validate] returns
    [(True, None)] or a hash mismatch, never a broken link and never an
    exception; each block stores its position as index; and the lookups
    return the patient's blocks in chain order. *)
Theorem menu_final_chain (now : pystr) (choices : list choice)
    (out : list pystr) (bc : Blockchain) :
  menu now choices = (out, Ok bc) ->
  (validate bc = Ok (true, None) \/
   exists i, (1 <= i < length (chain bc))%nat /\
     validate bc = Ok (false, Some (hash_mismatch_msg i))) /\
  (forall i b, chain bc !! i = Some b -> index b = Z.of_nat i) /\
  (forall p, get_all_records bc p = Ok (records_of p (chain bc)) /\
     get_latest_record bc p = Ok (last (records_of p (chain bc)))).
Proof.
  intros Hrun. destruct (menu_ok_run now choices) as (bc' & [out' Hrun'] & Hok).
  rewrite Hrun in Hrun'. injection Hrun' as _ <-.
  split; [by apply menu_ok_validate|]. split; [apply (mo_index _ Hok)|].
  intros p. split; [by apply menu_ok_get_all_records|].
  by rewrite get_latest_record_last, menu_ok_get_all_records.
Qed.

Lemma menu_final_chain_witness :
  (validate demo_session_chain = Ok (true, None) \/
   exists i, (1 <= i < length (chain demo_session_chain))%nat /\
     validate demo_session_chain = Ok (false, Some (hash_mismatch_msg i))) /\
  (forall i b, chain demo_session_chain !! i = Some b ->
     index b = Z.of_nat i) /\
  (forall p,
     get_all_records demo_session_chain p
     = Ok (records_of p (chain demo_session_chain)) /\
     get_latest_record demo_session_chain p
     = Ok (last (records_of p (chain demo_session_chain)))).
Proof.
  apply (menu_final_chain demo_now demo_choices demo_session.1).
  vm_compute. reflexivity.
Defined.

Example demo_session_validate :
  validate demo_session_chain = Ok (false, Some (hash_mismatch_msg 1)).
Proof. vm_compute. reflexivity. Qed.

(** X17.  Choice 6 never raises; it leaves the index, the length of the
    chain and the genesis block as they are, and in the blocks it changes
    nothing but the record: at most the one field of the block at the
    index typed, when that index is past the genesis block and inside the
    chain and the field is one of the three. *)
Theorem menu_tamper_frame (bc : Blockchain) (idx : option Z)
    (field value : pystr) :
  exists (out : list pystr) (bc' : Blockchain),
    menu_step bc (Choice6 idx field value) = (out, Ok (bc', true)) /\
    _patient_index bc' = _patient_index bc /\
    length (chain bc') = length (chain bc) /\
    chain bc' !! 0%nat = chain bc !! 0%nat /\
    (forall (i : nat) (b' : Block),
       chain bc' !! i = Some b' ->
       exists b, chain bc !! i = Some b /\
         index b' = index b /\ timestamp b' = timestamp b /\
         patient_id b' = patient_id b /\
         previous_hash b' = previous_hash b /\ hash b' = hash b /\
         (record b' = record b \/
          (idx = Some (Z.of_nat i) /\ (1 <= i)%nat /\
           field ∈ tamper_fields /\
           record b' = dict_set (record b) field (PyStr value)))).
Proof.
  assert (forall out, exists (out' : list pystr) (bc' : Blockchain),
    (out, Ok (bc, true)) = (out', Ok (bc', true)) /\
    _patient_index bc' = _patient_index bc /\
    length (chain bc') = length (chain bc) /\
    chain bc' !! 0%nat = chain bc !! 0%nat /\
    (forall (i : nat) (b' : Block),
       chain bc' !! i = Some b' ->
       exists b, chain bc !! i = Some b /\
         index b' = index b /\ timestamp b' = timestamp b /\
         patient_id b' = patient_id b /\
         previous_hash b' = previous_hash b /\ hash b' = hash b /\
         (record b' = record b \/
          (idx = Some (Z.of_nat i) /\ (1 <= i)%nat /\
           field ∈ tamper_fields /\
           record b' = dict_set (record b) field (PyStr value))))) as Hsame.
  { intros out. exists out, bc. repeat (split; [done|]).
    intros i b' Hb'. exists b'. repeat (split; [done|]). by left. }
  unfold menu_step. destruct idx as [idx|]; [|apply Hsame].
  destruct ((idx <=? 0)%Z || (Z.of_nat (length (chain bc)) <=? idx)%Z)
    eqn:Hrange; [apply Hsame|].
  case_bool_decide as Hfield; cbn [negb]; [|apply Hsame].
  apply orb_false_elim in Hrange as [H1%Z.leb_gt H2%Z.leb_gt].
  destruct (lookup_lt_is_Some_2 (chain bc) (Z.to_nat idx)) as [b Hb]; [lia|].
  assert (tamper_field bc idx field value
          = Ok (mkBlockchain
                  (<[Z.to_nat idx :=
                       set_record (dict_set (record b) field (PyStr value)) b]>
                     (chain bc)) (_patient_index bc))) as ->.
  { unfold tamper_field.
    replace idx with (Z.of_nat (Z.to_nat idx)) at 1 by lia.
    by rewrite list_get_nat, Hb. }
  eexists _, _. split; [reflexivity|]. cbn [chain _patient_index].
  split; [done|]. split; [apply length_insert|].
  split; [apply list_lookup_insert_ne; lia|].
  intros i b' Hb'.
  destruct (lookup_insert_set_record _ _ _ _ _ _ Hb Hb')
    as (y & Hy & Hi & Ht & Hp & Hph & Hh & Hr).
  exists y. repeat (split; [done|]).
  destruct Hr as [Hr|[-> Hr]]; [by left|]. right.
  rewrite Hb in Hy. injection Hy as <-.
  split; [f_equal; lia|]. split; [lia|]. by split.
Qed.

(** X18.  Tampering through choice 6 shows at the next validation: on a
    chain of the class, when the hash recomputed from the changed record is
    not the stored one, [validate] reports a hash mismatch at the index
    typed, and choice 5 prints [Blockchain valid: False] and that reason. *)
Theorem menu_tamper_detected (bc : Blockchain) (idx : Z)
    (field value : pystr) (b : Block) (h' : pystr) :
  reachable bc ->
  (0 < idx < Z.of_nat (length (chain bc)))%Z ->
  field ∈ tamper_fields ->
  chain bc !! Z.to_nat idx = Some b ->
  recomputed (set_record (dict_set (record b) field (PyStr value)) b)
  = Ok h' ->
  h' <> hash b ->
  exists (out : list pystr) (bc' : Blockchain),
    menu_step bc (Choice6 (Some idx) field value) = (out, Ok (bc', true)) /\
    validate bc' = Ok (false, Some (hash_mismatch_msg (Z.to_nat idx))) /\
    menu_step bc' Choice5
    = (menu_banner.1
       ++ [py "Blockchain valid: False";
           py "Reason: " ++ hash_mismatch_msg (Z.to_nat idx)],
       Ok (bc', true)).
Proof.
  intros Hinv%reachable_inv Hrange Hfield Hb Hrec Hh.
  set (b' := set_record (dict_set (record b) field (PyStr value)) b) in *.
  set (bc' := mkBlockchain (<[Z.to_nat idx := b']> (chain bc))
                (_patient_index bc)).
  assert (validate bc' = Ok (false, Some (hash_mismatch_msg (Z.to_nat idx))))
    as Hv.
  { apply (validate_hash_mismatch bc' (Z.to_nat idx) b' h'); cbn [bc' chain].
    - lia.
    - apply list_lookup_insert_eq. lia.
    - apply passes_before_insert. intros j Hj. apply inv_passes; [done|lia].
    - unfold link_ok.
      destruct (lookup_lt_is_Some_2 (chain bc) (Z.to_nat idx - 1)%nat)
        as [prev Hprev]; [lia|].
      rewrite list_lookup_insert_ne, Hprev by lia.
      rewrite list_lookup_insert_eq by lia.
      apply bool_decide_eq_true_2. change (previous_hash b = hash prev).
      apply (inv_link _ Hinv (Z.to_nat idx - 1)%nat); [done|].
      by replace (S (Z.to_nat idx - 1)) with (Z.to_nat idx) by lia.
    - exact Hrec.
    - exact Hh. }
  eexists _, bc'. split; [|split; [exact Hv|]].
  - unfold menu_step.
    assert ((idx <=? 0)%Z || (Z.of_nat (length (chain bc)) <=? idx)%Z = false)
      as ->.
    { apply orb_false_intro; apply Z.leb_gt; lia. }
    rewrite bool_decide_eq_true_2 by exact Hfield. cbn [negb].
    assert (tamper_field bc idx field value = Ok bc') as ->.
    { unfold tamper_field.
      replace idx with (Z.of_nat (Z.to_nat idx)) at 1 by lia.
      by rewrite list_get_nat, Hb. }
    reflexivity.
  - unfold menu_step. rewrite Hv. reflexivity.
Qed.

(** X19.  Choice 6 with the value the field already has changes nothing:
    the chain is the same object again and [validate] still returns
    [(True, None)], whatever the line printed says. *)
Theorem menu_tamper_same_value (bc : Blockchain) (idx : Z)
    (field value : pystr) (b : Block) :
  reachable bc ->
  (0 < idx < Z.of_nat (length (chain bc)))%Z ->
  field ∈ tamper_fields ->
  chain bc !! Z.to_nat idx = Some b ->
  dict_get (record b) field = Some (PyStr value) ->
  menu_step bc (Choice6 (Some idx) field value)
  = (menu_banner.1
     ++ [py "Tampered block " ++ py (pretty idx)
         ++ py ". Now validate to see failure."],
     Ok (bc, true)) /\
  validate bc = Ok (true, None).
Proof.
  intros Hinv%reachable_inv Hrange Hfield Hb Hget. split.
  - unfold menu_step.
    assert ((idx <=? 0)%Z || (Z.of_nat (length (chain bc)) <=? idx)%Z = false)
      as ->.
    { apply orb_false_intro; apply Z.leb_gt; lia. }
    rewrite bool_decide_eq_true_2 by exact Hfield. cbn [negb].
    assert (tamper_field bc idx field value = Ok bc) as ->.
    { unfold tamper_field.
      replace idx with (Z.of_nat (Z.to_nat idx)) at 1 by lia.
      rewrite list_get_nat, Hb. cbn [mbind result_bind].
      rewrite (dict_set_same _ _ _ Hget).
      replace (set_record (record b) b) with b by by destruct b.
      rewrite list_insert_id by done. by destruct bc. }
    reflexivity.
  - by apply validate_all_pass, inv_passes.
Qed.

Lemma menu_tamper_detected_witness :
  exists (out : list pystr) (bc' : Blockchain),
    menu_step demo2 (Choice6 (Some 1%Z) (py "diagnosis") (py "cold"))
    = (out, Ok (bc', true)) /\
    validate bc' = Ok (false, Some (hash_mismatch_msg (Z.to_nat 1))) /\
    menu_step bc' Choice5
    = (menu_banner.1
       ++ [py "Blockchain valid: False";
           py "Reason: " ++ hash_mismatch_msg (Z.to_nat 1)],
       Ok (bc', true)).
Proof.
  eapply (menu_tamper_detected demo2 1 (py "diagnosis") (py "cold")).
  - exact demo2_reachable.
  - vm_compute. split; reflexivity.
  - constructor.
  - vm_compute. reflexivity.
  - vm_compute. reflexivity.
  - vm_compute. discriminate.
Defined.

Lemma menu_tamper_same_value_witness :
  menu_step demo2 (Choice6 (Some 1%Z) (py "diagnosis") (py "flu"))
  = (menu_banner.1
     ++ [py "Tampered block " ++ py (pretty 1%Z)
         ++ py ". Now validate to see failure."],
     Ok (demo2, true)) /\
  validate demo2 = Ok (true, None).
Proof.
  eapply (menu_tamper_same_value demo2 1 (py "diagnosis") (py "flu")).
  - exact demo2_reachable.
  - vm_compute. split; reflexivity.
  - constructor.
  - vm_compute. reflexivity.
  - vm_compute. reflexivity.
Defined.

(** X20.  Choice 1 always adds the record, whatever strings are typed: the
    new block goes to the end of the chain with the patient id and the
    clock reading, its record holds the diagnosis and the treatment, and the
    notes only when some were typed; it is the patient's latest record, and
    the line printed names its index, the old length of the chain. *)
Theorem menu_add_record (now0 : pystr) (choices : list choice)
    (out0 : list pystr) (bc : Blockchain) (now pid d t n : pystr) :
  menu now0 choices = (out0, Ok bc) ->
  exists (b : Block) (bc' : Blockchain),
    menu_step bc (Choice1 now pid d t n)
    = (menu_banner.1
       ++ [py "Record added in block index: "
           ++ py (pretty (Z.of_nat (length (chain bc))))],
       Ok (bc', true)) /\
    chain bc' = chain bc ++ [b] /\
    patient_id b = pid /\ timestamp b = now /\
    dict_get (record b) (py "diagnosis") = Some (PyStr d) /\
    dict_get (record b) (py "treatment") = Some (PyStr t) /\
    dict_get (record b) (py "notes")
    = match n with [] => None | _ :: _ => Some (PyStr n) end /\
    get_latest_record bc' pid = Ok (Some b).
Proof.
  intros Hrun.
  destruct (menu_ok_run now0 choices) as (bc0 & [out' Hrun'] & Hok).
  rewrite Hrun in Hrun'. injection Hrun' as _ <-.
  destruct (menu_ok_add_record bc now pid d t n Hok)
    as (bc' & b & Hadd & Hidx & Hrec & Hpid & Hchain & Hnow & Hok').
  exists b, bc'. split; [|split; [done|]].
  { unfold menu_step. rewrite Hadd, <- Hidx. reflexivity. }
  do 2 (split; [done|]). rewrite Hrec.
  split; [by destruct n|]. split; [by destruct n|].
  split; [by destruct n|].
  rewrite get_latest_record_last, menu_ok_get_all_records by done.
  cbn [mbind result_bind]. f_equal. unfold records_of. rewrite Hchain.
  destruct (chain bc) as [|g rest] eqn:Hc; [by destruct (mo_nonempty _ Hok)|].
  cbn [app tail]. rewrite filter_app, filter_cons, filter_nil.
  rewrite decide_True by done. apply last_snoc.
Qed.

Lemma menu_add_record_witness :
  exists (b : Block) (bc' : Blockchain),
    menu_step demo_session_chain
      (Choice1 demo_now (py "patient-3") (py "asthma") (py "inhaler") [])
    = (menu_banner.1
       ++ [py "Record added in block index: "
           ++ py (pretty (Z.of_nat (length (chain demo_session_chain))))],
       Ok (bc', true)) /\
    chain bc' = chain demo_session_chain ++ [b] /\
    patient_id b = py "patient-3" /\ timestamp b = demo_now /\
    dict_get (record b) (py "diagnosis") = Some (PyStr (py "asthma")) /\
    dict_get (record b) (py "treatment") = Some (PyStr (py "inhaler")) /\
    dict_get (record b) (py "notes") = None /\
    get_latest_record bc' (py "patient-3") = Ok (Some b).
Proof.
  apply (menu_add_record demo_now demo_choices demo_session.1
           demo_session_chain demo_now (py "patient-3") (py "asthma")
           (py "inhaler") []).
  vm_compute. reflexivity.
Defined.

(** ** The canonical text can be read back *)

Section Unescape.

Lemma hex_unhex (k : N) : k < 16 -> unhex_digit (Json.hex_digit k) = k.
Proof.
  intros Hk. unfold unhex_digit, Json.hex_digit.
  destruct (N.ltb_spec k 10).
  - destruct (N.ltb_spec (48 + k) 58); lia.
  - destruct (N.ltb_spec (87 + k) 58); lia.
Qed.

Lemma unhex4_hex4 (n : N) (r : pystr) :
  n < 65536 ->
  exists a b c d, Json.hex4 n = [a; b; c; d] /\ unhex4 a b c d = n.
Proof.
  intros Hn. unfold Json.hex4. eexists _, _, _, _. split; [done|].
  unfold unhex4. rewrite !hex_unhex by (by apply N.mod_lt).
  rewrite !N.shiftr_div_pow2.
  change (2 ^ 12) with 4096. change (2 ^ 8) with 256. change (2 ^ 4) with 16.
  div_lia.
Qed.

Lemma unescape_u_escape (u : N) (r : pystr) :
  u < 65536 -> negb ((55296 <=? u) && (u <? 56320)) = true ->
  unescape (Json.u_escape u ++ r) = Some (u, r).
Proof.
  intros Hu Hs. destruct (unhex4_hex4 u r Hu) as (a & b & c & d & Hhex & Hun).
  unfold Json.u_escape. rewrite Hhex.
  change (unescape ((py "\u" ++ [a; b; c; d]) ++ r))
    with (let u := unhex4 a b c d in
          if (55296 <=? u) && (u <? 56320) then
            match r with
            | _ :: _ :: a' :: b' :: c' :: d' :: rest'' =>
                Some (65536 + (u - 55296) * 1024
                      + (unhex4 a' b' c' d' - 56320), rest'')
            | _ => None
            end
          else Some (u, r)).
  cbv zeta. rewrite Hun. apply negb_true_iff in Hs. by rewrite Hs.
Qed.

Lemma unescape_surrogates (h l : N) (r : pystr) :
  55296 <= h < 56320 -> l < 65536 ->
  unescape (Json.u_escape h ++ Json.u_escape l ++ r)
  = Some (65536 + (h - 55296) * 1024 + (l - 56320), r).
Proof.
  intros Hh Hl.
  destruct (unhex4_hex4 h r ltac:(lia)) as (a & b & c & d & Hhex & Hun).
  destruct (unhex4_hex4 l r Hl) as (a' & b' & c' & d' & Hhex' & Hun').
  unfold Json.u_escape. rewrite Hhex, Hhex'.
  change (unescape ((py "\u" ++ [a; b; c; d])
                    ++ (py "\u" ++ [a'; b'; c'; d']) ++ r))
    with (let u := unhex4 a b c d in
          if (55296 <=? u) && (u <? 56320) then
            Some (65536 + (u - 55296) * 1024
                  + (unhex4 a' b' c' d' - 56320), r)
          else Some (u, py "\u" ++ [a'; b'; c'; d'] ++ r)).
  cbv zeta. rewrite Hun, Hun'.
  destruct (N.leb_spec 55296 h), (N.ltb_spec h 56320); try lia. done.
Qed.

Lemma scalar_cases (x : N) :
  scalar x = true -> x < 55296 \/ (57344 <= x /\ x < 1114112).
Proof.
  unfold scalar.
  destruct (N.ltb_spec x 55296), (N.leb_spec 57344 x),
    (N.ltb_spec x 1114112); simpl; try done; lia.
Qed.

(** Reading back what [escape_char] wrote. *)
Lemma unescape_escape_char (x : N) (r : pystr) :
  scalar x = true -> unescape (Json.escape_char x ++ r) = Some (x, r).
Proof.
  intros Hx%scalar_cases. unfold Json.escape_char.
  repeat match goal with
         | |- context [?a =? ?b] =>
             destruct (N.eqb_spec a b) as [->|?]; [reflexivity|]
         end.
  destruct ((32 <=? x) && (x <=? 126)) eqn:Hprint.
  { cbn [app unescape]. by destruct (N.eqb_spec x 92). }
  destruct (N.ltb_spec x 65536) as [Hbmp|Hastral].
  - apply unescape_u_escape; [done|].
    destruct (N.leb_spec 55296 x), (N.ltb_spec x 56320); try done. lia.
  - rewrite <- app_assoc.
    pose proof (land_1023 (N.shiftr (x - 65536) 10)) as Hh.
    pose proof (land_1023 (x - 65536)) as Hl.
    destruct (lor_surrogate _ Hh) as [Eh _], (lor_surrogate _ Hl) as [_ El].
    rewrite unescape_surrogates by lia. do 2 f_equal.
    rewrite Eh, El. revert Eh El Hh Hl.
    change 1023 with (N.ones 10). rewrite !N.land_ones, N.shiftr_div_pow2.
    change (2 ^ 10) with 1024. intros _ _ _ _. div_lia.
Qed.

Lemma escape_char_head (x : N) :
  exists c rest, Json.escape_char x = c :: rest /\ c <> 34.
Proof.
  unfold Json.escape_char.
  repeat match goal with
         | |- context [?a =? ?b] =>
             destruct (N.eqb_spec a b); [by eexists _, _|]
         end.
  destruct ((32 <=? x) && (x <=? 126)); [by eexists _, _|].
  destruct (x <? 65536); by eexists _, _.
Qed.

(** An escaped string ends at its closing quote. *)
Lemma escaped_self_delimiting (s1 s2 r1 r2 : pystr) :
  forallb scalar s1 = true -> forallb scalar s2 = true ->
  concat (map Json.escape_char s1) ++ 34 :: r1
  = concat (map Json.escape_char s2) ++ 34 :: r2 ->
  s1 = s2 /\ r1 = r2.
Proof.
  revert s2. induction s1 as [|x s1 IH]; intros [|y s2] H1 H2 Heq.
  - by injection Heq.
  - exfalso. cbn [map concat] in Heq.
    destruct (escape_char_head y) as (c & rest & Hy & Hc).
    rewrite Hy in Heq. injection Heq as Heq _. congruence.
  - exfalso. cbn [map concat] in Heq.
    destruct (escape_char_head x) as (c & rest & Hx & Hc).
    rewrite Hx in Heq. injection Heq as Heq _. congruence.
  - cbn [forallb] in H1, H2.
    apply andb_prop in H1 as [Hx H1], H2 as [Hy H2].
    cbn [map concat] in Heq. rewrite <- !app_assoc in Heq.
    apply (f_equal unescape) in Heq.
    rewrite !unescape_escape_char in Heq by done.
    injection Heq as -> Heq.
    destruct (IH s2 H1 H2 Heq) as [-> ->]. done.
Qed.

Lemma encoded_self_delimiting (s1 s2 r1 r2 : pystr) :
  forallb scalar s1 = true -> forallb scalar s2 = true ->
  Json.encode_basestring_ascii s1 ++ r1
  = Json.encode_basestring_ascii s2 ++ r2 ->
  s1 = s2 /\ r1 = r2.
Proof.
  intros H1 H2 Heq. unfold Json.encode_basestring_ascii in Heq.
  rewrite <- !app_assoc in Heq. cbn [app] in Heq. injection Heq as Heq.
  by apply escaped_self_delimiting.
Qed.

End Unescape.

(** X21.  The JSON string encoding loses nothing on strings of Unicode
    scalar values (strings without surrogate code points): two such strings
    with the same encoding are equal. *)
Theorem encode_basestring_ascii_inj (s1 s2 : pystr) :
  forallb scalar s1 = true -> forallb scalar s2 = true ->
  Json.encode_basestring_ascii s1 = Json.encode_basestring_ascii s2 ->
  s1 = s2.
Proof.
  intros H1 H2 Heq.
  apply (encoded_self_delimiting s1 s2 [] []); [done|done|].
  by rewrite Heq.
Qed.

Lemma encode_basestring_ascii_inj_witness : py "P001" = py "P001".
Proof.
  apply (encode_basestring_ascii_inj (py "P001") (py "P001"));
    reflexivity.
Defined.

Section Digits.

Lemma pretty_N_char_digit (x : N) : is_digit (N_of_ascii (pretty_N_char x)) = true.
Proof. unfold pretty_N_char. by repeat case_match. Qed.

Lemma pretty_N_go_digits (x : N) (s : string) :
  forallb is_digit (py s) = true ->
  forallb is_digit (py (pretty_N_go x s)) = true.
Proof.
  revert s. induction (N.lt_wf_0 x) as [x _ IH]; intros s Hs.
  destruct (decide (x = 0)) as [->|Hx]; [by rewrite pretty_N_go_0|].
  rewrite pretty_N_go_step by lia. apply IH.
  - apply N.div_lt; lia.
  - change (is_digit (N_of_ascii (pretty_N_char (x mod 10)))
            && forallb is_digit (py s) = true).
    by rewrite pretty_N_char_digit, Hs.
Qed.

Lemma pretty_N_go_cons (x : N) (s : string) :
  py s <> [] -> py (pretty_N_go x s) <> [].
Proof.
  revert s. induction (N.lt_wf_0 x) as [x _ IH]; intros s Hs.
  destruct (decide (x = 0)) as [->|Hx]; [by rewrite pretty_N_go_0|].
  rewrite pretty_N_go_step by lia. apply IH; [apply N.div_lt; lia|done].
Qed.

Lemma pretty_N_digits (x : N) :
  forallb is_digit (py (pretty x)) = true /\ py (pretty x) <> [].
Proof.
  unfold pretty, pretty_N. case_decide as Hx; [done|]. split.
  - by apply pretty_N_go_digits.
  - rewrite pretty_N_go_step by lia. by apply pretty_N_go_cons.
Qed.

(** The decimal text of an integer: digits, after a minus sign when it is
    negative. *)
Lemma pretty_Z_digits (z : Z) :
  exists ds, forallb is_digit ds = true /\ ds <> [] /\
    py (pretty z) = (if (z <? 0)%Z then 45 :: ds else ds).
Proof.
  destruct z as [|p|p].
  - by exists (py "0").
  - exists (py (pretty (Npos p))).
    destruct (pretty_N_digits (Npos p)) as [Hd Hne]. done.
  - exists (py (pretty (Npos p))).
    destruct (pretty_N_digits (Npos p)) as [Hd Hne]. done.
Qed.

Lemma digits_prefix (a b r1 r2 : pystr) :
  forallb is_digit a = true -> forallb is_digit b = true ->
  ends_number r1 = true -> ends_number r2 = true ->
  a ++ r1 = b ++ r2 -> a = b /\ r1 = r2.
Proof.
  revert b. induction a as [|x a IH]; intros [|y b] Ha Hb H1 H2 Heq.
  - done.
  - exfalso. cbn [app] in Heq. subst r1. cbn in H1, Hb.
    apply andb_prop in Hb as [Hy _]. by rewrite Hy in H1.
  - exfalso. cbn [app] in Heq. subst r2. cbn in H2, Ha.
    apply andb_prop in Ha as [Hx _]. by rewrite Hx in H2.
  - cbn [app] in Heq. injection Heq as -> Heq. cbn in Ha, Hb.
    apply andb_prop in Ha as [_ Ha], Hb as [_ Hb].
    destruct (IH b Ha Hb H1 H2 Heq) as [-> ->]. done.
Qed.

(** A number in a text ends where the digits end. *)
Lemma number_self_delimiting (z1 z2 : Z) (r1 r2 : pystr) :
  ends_number r1 = true -> ends_number r2 = true ->
  py (pretty z1) ++ r1 = py (pretty z2) ++ r2 ->
  z1 = z2 /\ r1 = r2.
Proof.
  intros H1 H2 Heq.
  destruct (pretty_Z_digits z1) as (d1 & Hd1 & Hne1 & E1).
  destruct (pretty_Z_digits z2) as (d2 & Hd2 & Hne2 & E2).
  assert (py (pretty z1) = py (pretty z2) /\ r1 = r2) as [Hp ->].
  { rewrite E1, E2 in *.
    destruct (z1 <? 0)%Z, (z2 <? 0)%Z.
    - cbn [app] in Heq. injection Heq as Heq.
      by destruct (digits_prefix d1 d2 r1 r2) as [-> ->].
    - exfalso. destruct d2 as [|y d2]; [done|].
      cbn [app] in Heq. injection Heq as <- _. by cbn in Hd2.
    - exfalso. destruct d1 as [|x d1]; [done|].
      cbn [app] in Heq. injection Heq as -> _. by cbn in Hd1.
    - by destruct (digits_prefix d1 d2 r1 r2) as [-> ->]. }
  split; [|done]. by apply (inj pretty), py_inj.
Qed.

End Digits.

Section ReadBack.

Lemma clean_serializable (v : pyvalue) : clean v = true -> serializable v = true.
Proof.
  induction v as [| [] |z|s0|l IH|d IH|] using pyvalue_nested_ind;
    simpl; intros Hc; try done.
  - induction IH as [|v l Hv _ IHl]; [done|]. simpl in *.
    apply andb_prop in Hc as [H1 H2]. by rewrite (Hv H1), (IHl H2).
  - induction IH as [|[k v] d Hv _ IHd]; [done|]. simpl in *.
    apply andb_prop in Hc as [[_ H1]%andb_prop H2].
    by rewrite (Hv H1), (IHd H2).
Qed.

(** The encoder writes [text]. *)
Lemma compact_json_text (v : pyvalue) :
  serializable v = true -> Spec.compact_json v = Ok (text v).
Proof.
  induction v as [| [] |z|s0|l IH|d IH|] using pyvalue_nested_ind;
    simpl; intros Hs; try done.
  - assert (map Spec.compact_json l = map Ok (map text l)) as ->.
    { induction IH as [|v l Hv _ IHl]; [done|]. simpl in *.
      apply andb_prop in Hs as [H1 H2]. by rewrite (Hv H1), (IHl H2). }
    by rewrite encode_elements_Ok.
  - assert (map (Json.on_snd Spec.compact_json) d
            = map (Json.on_snd Ok) (map (fun kv => (kv.1, text kv.2)) d)) as ->.
    { induction IH as [|[k v] d Hv _ IHd]; [done|]. simpl in *.
      apply andb_prop in Hs as [H1 H2]. rewrite <- (IHd H2).
      unfold Json.on_snd at 1 3. simpl. by rewrite (Hv H1). }
    rewrite encode_members_Ok. by rewrite map_map.
Qed.

Lemma join_comma_tail (close : N) (e : pystr) (es : list pystr) (r : pystr) :
  Json.join_comma (e :: es) ++ close :: r = e ++ tail_text close es r.
Proof.
  revert e. induction es as [|e' es IH]; intros e; [done|].
  change (Json.join_comma (e :: e' :: es))
    with (e ++ [44] ++ Json.join_comma (e' :: es)).
  rewrite <- !app_assoc. cbn [app tail_text]. by rewrite IH.
Qed.

Lemma tail_text_ends_number (close : N) (es : list pystr) (r : pystr) :
  is_digit close = false -> ends_number (tail_text close es r) = true.
Proof. intros Hc. destruct es; cbn; by rewrite ?Hc. Qed.

(** The first character of a text tells the kind of the value. *)
Lemma text_head (v : pyvalue) :
  clean v = true ->
  exists c rest, text v = c :: rest /\ tag_of_char c = tag v.
Proof.
  destruct v as [| [] |z|s|l|d|]; intros Hc; try done;
    try (by eexists _, _).
  destruct (pretty_Z_digits z) as (ds & Hd & Hne & E).
  cbn [text tag]. rewrite E.
  destruct (z <? 0)%Z; [by eexists _, _|].
  destruct ds as [|c ds]; [done|]. exists c, ds. split; [done|].
  cbn in Hd. apply andb_prop in Hd as [Hc' _].
  unfold tag_of_char. rewrite Hc', orb_true_r.
  unfold is_digit in Hc'. apply andb_prop in Hc' as [?%N.leb_le ?%N.leb_le].
  repeat match goal with
         | |- context [?a =? ?b] =>
             destruct (N.eqb_spec a b); [exfalso; lia|]
         end.
  done.
Qed.

Lemma elements_read_back (close : N) (l1 l2 : list pyvalue) (r1 r2 : pystr) :
  is_digit close = false -> close <> 44 ->
  Forall reads_back l1 ->
  forallb clean l1 = true -> forallb clean l2 = true ->
  tail_text close (map text l1) r1 = tail_text close (map text l2) r2 ->
  l1 = l2 /\ r1 = r2.
Proof.
  intros Hclose Hcomma IH. revert l2.
  induction IH as [|v1 l1 Hv _ IHl]; intros [|v2 l2] H1 H2 Heq.
  - by injection Heq.
  - cbn in Heq. injection Heq as Heq _. done.
  - cbn in Heq. injection Heq as Heq _. done.
  - cbn [map tail_text] in Heq. injection Heq as Heq.
    cbn [forallb] in H1, H2.
    apply andb_prop in H1 as [Hc1 H1], H2 as [Hc2 H2].
    destruct (Hv v2 _ _ Hc1 Hc2 (tail_text_ends_number _ _ _ Hclose)
                (tail_text_ends_number _ _ _ Hclose) Heq) as [-> Heq'].
    destruct (IHl l2 H1 H2 Heq') as [-> ->]. done.
Qed.

Lemma members_read_back (d1 d2 : pydict) (r1 r2 : pystr) :
  Forall (fun kv => reads_back kv.2) d1 ->
  forallb (fun kv => forallb scalar kv.1 && clean kv.2) d1 = true ->
  forallb (fun kv => forallb scalar kv.1 && clean kv.2) d2 = true ->
  tail_text 125 (map (fun kv => Json.member (kv.1, text kv.2)) d1) r1
  = tail_text 125 (map (fun kv => Json.member (kv.1, text kv.2)) d2) r2 ->
  d1 = d2 /\ r1 = r2.
Proof.
  intros IH. revert d2.
  induction IH as [|[k1 v1] d1 Hv _ IHd]; intros [|[k2 v2] d2] H1 H2 Heq.
  - by injection Heq.
  - cbn in Heq. injection Heq as Heq _. done.
  - cbn in Heq. injection Heq as Heq _. done.
  - cbn [map tail_text fst snd] in Heq. apply (inj (cons _)) in Heq.
    cbn [forallb fst snd] in H1, H2.
    apply andb_prop in H1 as [[Hk1 Hc1]%andb_prop H1].
    apply andb_prop in H2 as [[Hk2 Hc2]%andb_prop H2].
    unfold Json.member at 1 3 in Heq. cbn [fst snd] in Heq.
    rewrite <- !app_assoc in Heq.
    destruct (encoded_self_delimiting _ _ _ _ Hk1 Hk2 Heq) as [-> Heq1].
    apply (inj (cons _)) in Heq1.
    cbn [snd] in Hv.
    destruct (Hv v2 _ _ Hc1 Hc2 (tail_text_ends_number 125 _ _ eq_refl)
                (tail_text_ends_number 125 _ _ eq_refl) Heq1) as [-> Heq2].
    destruct (IHd d2 H1 H2 Heq2) as [-> ->]. done.
Qed.

Lemma text_reads_back (v : pyvalue) : reads_back v.
Proof.
  induction v as [| [] |z|s|l IH|d IH|] using pyvalue_nested_ind;
    intros v2 r1 r2 Hc1 Hc2 Hr1 Hr2 Heq; try done.
  all: destruct (text_head _ Hc1) as (c1 & t1 & Ht1 & Htag1).
  all: destruct (text_head _ Hc2) as (c2 & t2 & Ht2 & Htag2).
  all: assert (tag v2 = tag_of_char c1) as Htag
         by (rewrite Ht1, Ht2 in Heq; cbn [app] in Heq;
             injection Heq as -> _; done).
  all: rewrite Htag1 in Htag; clear c1 t1 Ht1 Htag1 c2 t2 Ht2 Htag2.
  all: destruct v2 as [| [] |z2|s2|l2|d2|]; try done.
  - split; [done|]. by apply app_inv_head in Heq.
  - split; [done|]. by apply app_inv_head in Heq.
  - split; [done|]. by apply app_inv_head in Heq.
  - cbn [text] in Heq.
    by destruct (number_self_delimiting z z2 r1 r2 Hr1 Hr2 Heq) as [-> ->].
  - cbn [text] in Heq. cbn [clean] in Hc1, Hc2.
    by destruct (encoded_self_delimiting s s2 r1 r2 Hc1 Hc2 Heq) as [-> ->].
  - cbn [text clean] in *. rewrite <- !app_assoc in Heq. cbn [app] in Heq.
    injection Heq as Heq.
    destruct l as [|v l], l2 as [|v2 l2].
    + by injection Heq as ->.
    + exfalso. cbn [forallb] in Hc2. apply andb_prop in Hc2 as [Hc2 _].
      destruct (text_head _ Hc2) as (c & t & Ht & Htag').
      cbn [map] in Heq. rewrite join_comma_tail in Heq.
      rewrite Ht in Heq. cbn in Heq. injection Heq as <- _.
      by destruct v2 as [| [] | | | | |].
    + exfalso. cbn [forallb] in Hc1. apply andb_prop in Hc1 as [Hc1 _].
      destruct (text_head _ Hc1) as (c & t & Ht & Htag').
      cbn [map] in Heq. rewrite join_comma_tail in Heq.
      rewrite Ht in Heq. cbn in Heq. injection Heq as -> _.
      by destruct v as [| [] | | | | |].
    + cbn [map] in Heq. rewrite !join_comma_tail in Heq.
      cbn [forallb] in Hc1, Hc2.
      apply andb_prop in Hc1 as [Hv1 Hc1], Hc2 as [Hv2 Hc2].
      apply Forall_cons in IH as [IHv IH].
      destruct (IHv v2 _ _ Hv1 Hv2 (tail_text_ends_number 93 _ _ eq_refl)
                  (tail_text_ends_number 93 _ _ eq_refl) Heq) as [-> Heq'].
      by destruct (elements_read_back 93 l l2 r1 r2 eq_refl ltac:(done)
                     IH Hc1 Hc2 Heq') as [-> ->].
  - cbn [text clean] in *. rewrite <- !app_assoc in Heq. cbn [app] in Heq.
    injection Heq as Heq.
    destruct d as [|[k v] d], d2 as [|[k2 v2] d2].
    + by injection Heq as ->.
    + exfalso. cbn [map] in Heq. rewrite join_comma_tail in Heq.
      cbn in Heq. by injection Heq.
    + exfalso. cbn [map] in Heq. rewrite join_comma_tail in Heq.
      cbn in Heq. by injection Heq.
    + cbn [map] in Heq. rewrite !join_comma_tail in Heq.
      pose proof (members_read_back ((k, v) :: d) ((k2, v2) :: d2) r1 r2 IH
                    Hc1 Hc2) as Hm.
      cbn [map tail_text] in Hm.
      destruct Hm as [Hd ->]; [by f_equal|]. by rewrite Hd.
Qed.

End ReadBack.

Section Canonical.

Lemma clean_sort_keys (v : pyvalue) :
  clean v = true -> clean (sort_keys v) = true.
Proof.
  induction v as [| [] |z|s|l IH|d IH|] using pyvalue_nested_ind;
    intros Hc; try done.
  - cbn [sort_keys clean] in *.
    induction IH as [|v l Hv _ IHl]; [done|]. cbn [map forallb] in *.
    apply andb_prop in Hc as [H1 H2]. by rewrite (Hv H1), (IHl H2).
  - cbn [sort_keys clean] in *. apply forallb_forall. intros kv Hin.
    apply list_elem_of_In in Hin. rewrite sort_items_perm in Hin.
    apply list_elem_of_In, in_map_iff in Hin as ([k v] & <- & Hin).
    rewrite forallb_forall in Hc. specialize (Hc _ Hin).
    rewrite Forall_forall in IH. apply list_elem_of_In in Hin.
    specialize (IH _ Hin). cbn [fst snd Json.on_snd] in *.
    apply andb_prop in Hc as [Hk Hv]. by rewrite Hk, (IH Hv).
Qed.

(** The text [json.dumps] writes for a value without surrogates. *)
Lemma dumps_text (v : pyvalue) :
  clean v = true -> Json.dumps v = Ok (text (sort_keys v)).
Proof.
  intros Hc. rewrite <- compact_json_sort_keys.
  by apply compact_json_text, clean_serializable, clean_sort_keys.
Qed.

(** Two values with the same text differ in the order of their keys only. *)
Lemma dumps_inj (v1 v2 : pyvalue) :
  clean v1 = true -> clean v2 = true ->
  Json.dumps v1 = Json.dumps v2 -> sort_keys v1 = sort_keys v2.
Proof.
  intros H1 H2 Heq. rewrite !dumps_text in Heq by done.
  injection Heq as Heq.
  apply (text_reads_back (sort_keys v1) (sort_keys v2) [] []);
    [by apply clean_sort_keys|by apply clean_sort_keys|done|done|].
  by rewrite Heq.
Qed.

Lemma payload_clean (i : Z) (t p : pystr) (r : pydict) (ph : pystr) :
  forallb scalar t = true -> forallb scalar p = true ->
  clean (PyDict r) = true -> forallb scalar ph = true ->
  clean (Spec.payload i t p r ph) = true.
Proof.
  intros Ht Hp Hr Hph. unfold Spec.payload.
  cbn [clean forallb fst snd] in *. rewrite Ht, Hp, Hr, Hph.
  by vm_compute.
Qed.

Lemma sort_keys_payload (i : Z) (t p : pystr) (r : pydict) (ph : pystr) :
  sort_keys (Spec.payload i t p r ph)
  = PyDict [ (py "index", PyInt i);
             (py "patient_id", PyStr p);
             (py "previous_hash", PyStr ph);
             (py "record", sort_keys (PyDict r));
             (py "timestamp", PyStr t) ].
Proof. reflexivity. Qed.

End Canonical.

(** The text that [compute_hash] hashes determines the block, the order of
    the keys of its dicts apart. *)
Lemma block_string_inj (i i' : Z) (t t' p p' : pystr) (r r' : pydict)
    (ph ph' : pystr) :
  clean (Spec.payload i t p r ph) = true ->
  clean (Spec.payload i' t' p' r' ph') = true ->
  Json.dumps (Spec.payload i t p r ph)
  = Json.dumps (Spec.payload i' t' p' r' ph') ->
  i = i' /\ t = t' /\ p = p' /\ ph = ph' /\
  sort_keys (PyDict r) = sort_keys (PyDict r').
Proof.
  intros H1 H2 Heq. apply dumps_inj in Heq; [|done|done].
  rewrite !sort_keys_payload in Heq.
  injection Heq as Hi Hp Hph Hr Ht.
  repeat (split; [done|]). cbn [sort_keys]. by rewrite Hr.
Qed.

(** X22.  Two blocks whose strings hold no surrogate code points get the
    same hash from [compute_hash] only if they have the same index,
    timestamp, patient id and previous hash and their records are equal once
    the items of every dict are put in key order, or if the two texts that
    were hashed are different texts with the same SHA-256 digest. *)
Theorem compute_hash_equal (i i' : Z) (t t' p p' : pystr) (r r' : pydict)
    (ph ph' : pystr) :
  clean (Spec.payload i t p r ph) = true ->
  clean (Spec.payload i' t' p' r' ph') = true ->
  compute_hash i t p r ph = compute_hash i' t' p' r' ph' ->
  (i = i' /\ t = t' /\ p = p' /\ ph = ph' /\
   sort_keys (PyDict r) = sort_keys (PyDict r'))
  \/ exists s s' : pystr,
       Json.dumps (Spec.payload i t p r ph) = Ok s /\
       Json.dumps (Spec.payload i' t' p' r' ph') = Ok s' /\
       s <> s' /\ Sha256.hexdigest s = Sha256.hexdigest s'.
Proof.
  intros H1 H2 Heq.
  pose proof (dumps_text _ H1) as Hd1. pose proof (dumps_text _ H2) as Hd2.
  rewrite !compute_hash_dumps, Hd1, Hd2 in Heq.
  cbn [mbind result_bind] in Heq.
  destruct (decide (text (sort_keys (Spec.payload i t p r ph))
                    = text (sort_keys (Spec.payload i' t' p' r' ph'))))
    as [He|Hne].
  - left. apply block_string_inj; [done|done|]. by rewrite Hd1, Hd2, He.
  - right. eexists _, _. split; [exact Hd1|]. split; [exact Hd2|].
    split; [done|]. congruence.
Qed.

Lemma compute_hash_equal_witness :
  (1%Z = 1%Z /\ demo_now = demo_now /\ py "P001" = py "P001" /\
   py "0" = py "0" /\
   sort_keys (PyDict flu) = sort_keys (PyDict (rev flu)))
  \/ exists s s' : pystr,
       Json.dumps (Spec.payload 1 demo_now (py "P001") flu (py "0")) = Ok s /\
       Json.dumps (Spec.payload 1 demo_now (py "P001") (rev flu) (py "0"))
       = Ok s' /\
       s <> s' /\ Sha256.hexdigest s = Sha256.hexdigest s'.
Proof.
  apply (compute_hash_equal 1 1 demo_now demo_now (py "P001") (py "P001")
           flu (rev flu) (py "0") (py "0"));
    vm_compute; reflexivity.
Defined.
